(** * MediMatch: the drug-interaction route handler

    A shallow embedding of the API route [POST /api/drug-interaction]
    (normalizeDrugName, normalizeSeverity, findInteractionInTable and the
    handler itself), together with the properties of its behaviour.

    Conventions of the embedding.
    - A JavaScript string is a [string]; every [ascii] stands for one UTF-16
      code unit below 256 (the Latin-1 range), on which [toLowerCase] and
      [trim] are modelled exactly.
    - [await] on a Supabase query either resolves with a response object
      [{ data, error }] or rejects (throws); both are kept.
    - The handler is written in a small monad that records, in order, every
      query sent to the store and every [console.error] line.
    - [POST] is the route once its Supabase client is built; [Route.POST] is
      the whole route, from the building of the client. *)

From Stdlib Require Import String Ascii List Bool Arith ZArith.
Import ListNotations.
Local Open Scope list_scope.
Local Open Scope string_scope.

(** ** JavaScript strings *)

Module JsString.

(** Code units that [String.prototype.trim] strips: TAB, LF, VT, FF, CR,
    SPACE and NBSP (the white space and line terminators below 256). *)
Definition isWhiteSpace (c : ascii) : bool :=
  let n := nat_of_ascii c in
  (((9 <=? n) && (n <=? 13)) || (n =? 32) || (n =? 160))%nat.

(** Upper-case letters below 256: A-Z, and U+00C0..U+00DE except the
    multiplication sign U+00D7; each lowers to the code unit 32 above. *)
Definition isUpper (c : ascii) : bool :=
  let n := nat_of_ascii c in
  (((65 <=? n) && (n <=? 90)) ||
   ((192 <=? n) && (n <=? 222) && negb (n =? 215)))%nat.

Definition lowerChar (c : ascii) : ascii :=
  if isUpper c then ascii_of_nat (nat_of_ascii c + 32) else c.

Fixpoint toLowerCase (s : string) : string :=
  match s with
  | EmptyString => EmptyString
  | String c r => String (lowerChar c) (toLowerCase r)
  end.

Fixpoint trimStart (s : string) : string :=
  match s with
  | EmptyString => EmptyString
  | String c r => if isWhiteSpace c then trimStart r else s
  end.

Fixpoint trimEnd (s : string) : string :=
  match s with
  | EmptyString => EmptyString
  | String c r =>
      match trimEnd r with
      | EmptyString => if isWhiteSpace c then EmptyString else String c EmptyString
      | r' => String c r'
      end
  end.

Definition trim (s : string) : string := trimEnd (trimStart s).

(** [startsWith s t] is [s.startsWith(t)]. *)
Fixpoint startsWith (s t : string) {struct t} : bool :=
  match t with
  | EmptyString => true
  | String b t' =>
      match s with
      | EmptyString => false
      | String a s' => Ascii.eqb a b && startsWith s' t'
      end
  end.

(** [includes s t] is [s.includes(t)]: [t] occurs in [s] at some offset. *)
Fixpoint includes (s t : string) : bool :=
  startsWith s t ||
  match s with
  | EmptyString => false
  | String _ s' => includes s' t
  end.

(** [join sep l] is [l.join(sep)]. *)
Fixpoint join (sep : string) (l : list string) : string :=
  match l with
  | [] => EmptyString
  | [x] => x
  | x :: rest => x ++ sep ++ join sep rest
  end.

(** Every code unit of the string is white space. *)
Fixpoint allWhiteSpace (s : string) : bool :=
  match s with
  | EmptyString => true
  | String c r => isWhiteSpace c && allWhiteSpace r
  end.

(** The string begins, or ends, with a white-space code unit. *)
Definition headSpace (s : string) : bool :=
  match s with
  | EmptyString => false
  | String c _ => isWhiteSpace c
  end.

Fixpoint lastSpace (s : string) : bool :=
  match s with
  | EmptyString => false
  | String c EmptyString => isWhiteSpace c
  | String _ r => lastSpace r
  end.

(** The occurrence relation [includes] decides. *)
Definition Occurs (t s : string) : Prop :=
  exists pre post, s = pre ++ t ++ post.

End JsString.
Import JsString.

(** ** Values of a request body *)

(** What a field read off a parsed JSON body can be.  [JObject] stands for
    arrays and objects, of which the handler only sees that they are truthy
    and have no string methods; of a number it only sees whether it is
    zero. *)
Inductive jsval : Type :=
| JUndefined
| JNull
| JBool (b : bool)
| JNum (n : Z)
| JStr (s : string)
| JObject.

(** JavaScript truthiness, as tested by [!v] and [v || d]. *)
Definition truthy (v : jsval) : bool :=
  match v with
  | JUndefined | JNull => false
  | JBool b => b
  | JNum n => negb (n =? 0)%Z
  | JStr s => negb (s =? "")
  | JObject => true
  end.

(** [v || d] on an optional string ([None] is null or undefined). *)
Definition orElse (v : option string) (d : string) : string :=
  match v with
  | Some s => if s =? "" then d else s
  | None => d
  end.

(** ** The normalizer *)

(** The union ["Major" | "Moderate" | "Minor" | "None"]. *)
Module Severity.
Inductive t : Type := Major | Moderate | Minor | None.

Definition text (s : t) : string :=
  match s with
  | Major => "Major"
  | Moderate => "Moderate"
  | Minor => "Minor"
  | None => "None"
  end.

Definition all : list t := [Major; Moderate; Minor; None].
End Severity.

Definition normalizeDrugName (drug : string) : string :=
  trim (toLowerCase drug).

Definition normalizeSeverity (sev : option string) : Severity.t :=
  let s := toLowerCase (orElse sev "") in
  if includes s "major" then Severity.Major
  else if includes s "moderate" then Severity.Moderate
  else if includes s "minor" then Severity.Minor
  else Severity.None.


(** ** The Supabase connector *)

(** A row of a response: the string-valued fields of the JSON object.  A
    column that is SQL NULL, or that was not selected, has no entry, so that
    reading it gives [None] (null or undefined). *)
Definition Row : Type := list (string * string).

Fixpoint field (name : string) (r : Row) : option string :=
  match r with
  | [] => None
  | (k, v) :: rest => if k =? name then Some v else field name rest
  end.

Record PostgrestError : Type := { message : string }.

(** The object a query resolves with: [{ data, error }]. *)
Record PostgrestResponse : Type :=
  { error : option PostgrestError;
    data : option (list Row) }.

(** The builder chain
    [supabase.from(t).select(cols).ilike(c1, p1).ilike(c2, p2).limit(n)]. *)
Record Query : Type :=
  { from : string;
    select : string;
    ilike : list (string * string);
    limit : nat }.

(** What [await] on a query gives: the promise rejects, or it resolves. *)
Inductive Settled : Type :=
| Rejected
| Fulfilled (r : PostgrestResponse).

Definition Connector : Type := Query -> Settled.

(** A connector whose every call resolves, with the answer [answer q]. *)
Definition resolving (answer : Query -> PostgrestResponse) : Connector :=
  fun q => Fulfilled (answer q).

(** ** Effects of the handler *)

Inductive Event : Type :=
| Sent (q : Query)
| ConsoleError (args : list string).

Inductive Completion (A : Type) : Type :=
| Normal (a : A)
| Throw.
Arguments Normal {A} a.
Arguments Throw {A}.

(** A computation: how it completes, and the events it caused, in order. *)
Definition Async (A : Type) : Type := Completion A * list Event.

Definition ret {A} (a : A) : Async A := (Normal a, []).

Definition throw {A} : Async A := (Throw, []).

Definition bind {A B} (m : Async A) (f : A -> Async B) : Async B :=
  match m with
  | (Normal a, t) => let (r, t') := f a in (r, (t ++ t')%list)
  | (Throw, t) => (Throw, t)
  end.

(** [try { m } catch { h }]. *)
Definition tryCatch {A} (m : Async A) (h : Async A) : Async A :=
  match m with
  | (Normal a, t) => (Normal a, t)
  | (Throw, t) => let (r, t') := h in (r, (t ++ t')%list)
  end.

Definition await (supabase : Connector) (q : Query) : Async PostgrestResponse :=
  match supabase q with
  | Rejected => (Throw, [Sent q])
  | Fulfilled r => (Normal r, [Sent q])
  end.

Definition consoleError (args : list string) : Async unit :=
  (Normal tt, [ConsoleError args]).

Notation "x <- m ;; k" := (bind m (fun x => k))
  (at level 61, m at next level, right associativity).
Notation "m ;;; k" := (bind m (fun _ => k))
  (at level 61, right associativity).

(** The queries among the events, in the order they were sent. *)
Fixpoint queries (t : list Event) : list Query :=
  match t with
  | [] => []
  | Sent q :: rest => q :: queries rest
  | ConsoleError _ :: rest => queries rest
  end.

(** The [console.error] lines among the events. *)
Fixpoint errorLines (t : list Event) : list (list string) :=
  match t with
  | [] => []
  | Sent _ :: rest => errorLines rest
  | ConsoleError a :: rest => a :: errorLines rest
  end.

(** ** The handler *)

(** The interface [DrugInteraction].  Its TypeScript types are erased at run
    time: a field holds what the store's row carried, or nothing. *)
Record DrugInteraction : Type :=
  { drug1 : option string;
    drug2 : option string;
    severity : option string;
    description : option string;
    interaction : option string }.

(** [row as DrugInteraction]: the fields read later are those of the row. *)
Definition asDrugInteraction (row : Row) : DrugInteraction :=
  {| drug1 := field "drug1" row;
     drug2 := field "drug2" row;
     severity := field "severity" row;
     description := field "description" row;
     interaction := field "interaction" row |}.

(** The object built from a DDInter-like row. *)
Definition ofDDInterRow (row : Row) : DrugInteraction :=
  {| drug1 := field "primary_drug_name" row;
     drug2 := field "secondary_drug_name" row;
     severity :=
       Some (Severity.text (normalizeSeverity (field "interaction_severity" row)));
     description := None;
     interaction := None |}.

(** Variant A: legacy columns drug1/drug2/severity. *)
Definition variantA (tableName likeFirst likeSecond : string) : Query :=
  {| from := tableName;
     select := "drug1,drug2,severity,description,interaction";
     ilike := [("drug1", likeFirst); ("drug2", likeSecond)];
     limit := 1 |}.

(** Variant B: DDInter-like columns. *)
Definition variantB (tableName likeFirst likeSecond : string) : Query :=
  {| from := tableName;
     select := "primary_drug_name,secondary_drug_name,interaction_severity";
     ilike := [("primary_drug_name", likeFirst); ("secondary_drug_name", likeSecond)];
     limit := 1 |}.

(** [!r.error && r.data && r.data.length > 0], and then [r.data[0]]. *)
Definition firstRow (r : PostgrestResponse) : option Row :=
  match error r, data r with
  | None, Some (row :: _) => Some row
  | _, _ => None
  end.

(** [[e1, ...].filter(Boolean).map(e => e.message)]. *)
Fixpoint messages (errs : list (option PostgrestError)) : list string :=
  match errs with
  | [] => []
  | Some e :: rest => message e :: messages rest
  | None :: rest => messages rest
  end.

Definition isSome {A} (o : option A) : bool :=
  match o with Some _ => true | None => false end.

Section Lookup.

(** What the closure [findInteractionInTable] captures. *)
Variable supabase : Connector.
Variables normalizedDrug1 normalizedDrug2 : string.

(** The four reads of one table.  When none returns a record the function
    logs the error objects it got, if any, and returns null
    ([hadError ? null : null]). *)
Definition findInteractionInTable (tableName : string)
  : Async (option DrugInteraction) :=
  let like1 := "%" ++ normalizedDrug1 ++ "%" in
  let like2 := "%" ++ normalizedDrug2 ++ "%" in
  firstA <- await supabase (variantA tableName like1 like2) ;;
  match firstRow firstA with
  | Some row => ret (Some (asDrugInteraction row))
  | None =>
  firstB <- await supabase (variantB tableName like1 like2) ;;
  match firstRow firstB with
  | Some row => ret (Some (ofDDInterRow row))
  | None =>
  secondA <- await supabase (variantA tableName like2 like1) ;;
  match firstRow secondA with
  | Some row => ret (Some (asDrugInteraction row))
  | None =>
  secondB <- await supabase (variantB tableName like2 like1) ;;
  match firstRow secondB with
  | Some row => ret (Some (ofDDInterRow row))
  | None =>
  let errors := [error firstA; error firstB; error secondA; error secondB] in
  (if existsb isSome errors
   then consoleError ["Supabase read errors for table " ++ tableName ++ ":";
                      join " | " (messages errors)]
   else ret tt) ;;;
  ret None
  end end end end.

(** The loop [for (const tableName of tableCandidates)]: the value of
    [interaction] when it ends. *)
Fixpoint forTableCandidates (tables : list string)
  : Async (option DrugInteraction) :=
  match tables with
  | [] => ret None
  | tableName :: rest =>
      found <- tryCatch (findInteractionInTable tableName) (ret None) ;;
      match found with
      | Some i => ret (Some i)
      | None => forTableCandidates rest
      end
  end.

End Lookup.

Inductive Body : Type :=
| ErrorBody (error : string)
| InteractionBody (d : DrugInteraction).

(** [NextResponse.json(body, { status })]; the status defaults to 200. *)
Record NextResponse : Type :=
  { status : nat;
    body : Body }.

(** [process.env.NEXT_PUBLIC_DRUG_INTERACTIONS_TABLE]. *)
Definition Env : Type := option string.

Definition tableCandidates (env : Env) : list string :=
  [orElse env "drug_interactions"; "DrugInteraction"; "druginteraction"].

(** The parsed request: [await request.json()] throws on a body that is
    not JSON, and destructuring throws on a null body; otherwise the two
    fields are read ([JUndefined] when missing). *)
Inductive RequestJson : Type :=
| Unparsable
| Fields (drug1 drug2 : jsval).

Definition requestJson (request : RequestJson) : Async (jsval * jsval) :=
  match request with
  | Unparsable => throw
  | Fields d1 d2 => ret (d1, d2)
  end.

(** Calling a string method on a truthy value: a TypeError unless it is a
    string. *)
Definition receiver (v : jsval) : Async string :=
  match v with
  | JStr s => ret s
  | _ => throw
  end.

Definition fallbackDescription : string :=
  "No known significant interactions found between these medications in our database.".

Definition fallbackInteraction : string :=
  "Based on current medical data, these medications do not have significant documented interactions. However, always consult with your healthcare provider as individual factors may affect medication interactions.".

Definition handler (env : Env) (supabase : Connector) (request : RequestJson)
  : Async NextResponse :=
  fields <- requestJson request ;;
  let (drug1, drug2) := fields in
  if negb (truthy drug1) || negb (truthy drug2)
  then ret {| status := 400; body := ErrorBody "Both drug names are required" |}
  else
    s1 <- receiver drug1 ;;
    let normalizedDrug1 := normalizeDrugName s1 in
    s2 <- receiver drug2 ;;
    let normalizedDrug2 := normalizeDrugName s2 in
    found <- forTableCandidates supabase normalizedDrug1 normalizedDrug2
               (tableCandidates env) ;;
    match found with
    | Some i =>
        ret {| status := 200;
               body := InteractionBody
                 {| drug1 := Some (trim s1);
                    drug2 := Some (trim s2);
                    severity := severity i;
                    description := description i;
                    interaction := interaction i |} |}
    | None =>
        ret {| status := 200;
               body := InteractionBody
                 {| drug1 := Some (trim s1);
                    drug2 := Some (trim s2);
                    severity := Some "None";
                    description := Some fallbackDescription;
                    interaction := Some fallbackInteraction |} |}
    end.

(** The route once its client is built: the statements of the [try] after
    [const supabase = getSupabaseServerClient()], and the [catch] that
    answers 500; [supabase] is what the client's queries do.  The whole
    route, with the building of the client, is [Route.POST] below. *)
Definition POST (env : Env) (supabase : Connector) (request : RequestJson)
  : NextResponse * list Event :=
  match handler env supabase request with
  | (Normal r, t) => (r, t)
  | (Throw, t) =>
      ({| status := 500; body := ErrorBody "Internal server error" |},
       (t ++ [ConsoleError ["Error checking drug interaction:"]])%list)
  end.


(** ** A reference record store *)

Module Store.

(** Modelled from the spec: the record store and its connector (Supabase,
    PostgREST) are an external collaborator of which the repository only
    has the calls.  Section 6 asks of it a case-insensitive pattern filter
    on a named field, limit-n retrieval, and an answer that tells an empty
    result from a failure.  The filter is SQL's ILIKE: [%] matches any run
    of characters, [_] any one character, a backslash takes the next
    character literally; every other character matches itself.  On the
    patterns [%x%] the handler builds this is the "contains" test of
    Section 4.2 whenever [x] has none of the three special characters
    (lemma [ilikeMatch_contains]). *)
Fixpoint like (p : string) : string -> bool :=
  match p with
  | EmptyString =>
      fun v => match v with EmptyString => true | String _ _ => false end
  | String c p' =>
      if Ascii.eqb c "%" then
        fix skip (v : string) : bool :=
          like p' v ||
          match v with
          | EmptyString => false
          | String _ v' => skip v'
          end
      else if Ascii.eqb c "_" then
        fun v => match v with
                 | EmptyString => false
                 | String _ v' => like p' v'
                 end
      else if Ascii.eqb c "\" then
        match p' with
        | EmptyString => fun _ => false
        | String e p'' =>
            fun v => match v with
                     | EmptyString => false
                     | String a v' => Ascii.eqb a e && like p'' v'
                     end
        end
      else
        fun v => match v with
                 | EmptyString => false
                 | String a v' => Ascii.eqb a c && like p' v'
                 end
  end.

(** A character that is none of the three special ones, and a string of
    such characters. *)
Definition plainChar (c : ascii) : bool :=
  negb (Ascii.eqb c "%") && negb (Ascii.eqb c "_") && negb (Ascii.eqb c "\").

Fixpoint plain (s : string) : bool :=
  match s with
  | EmptyString => true
  | String c r => plainChar c && plain r
  end.

(** [value ILIKE pattern]. *)
Definition ilikeMatch (value pattern : string) : bool :=
  like (toLowerCase pattern) (toLowerCase value).

(** A table: its column names and its rows.  A row has an entry for each
    column that is not NULL. *)
Record Table : Type :=
  { columns : list string;
    rows : list Row }.

Definition t : Type := list (string * Table).

Fixpoint table (name : string) (db : t) : option Table :=
  match db with
  | [] => None
  | (n, tbl) :: rest => if n =? name then Some tbl else table name rest
  end.

(** The column list of a [select]: its comma-separated names. *)
Fixpoint splitCommas (s : string) : list string :=
  match s with
  | EmptyString => [EmptyString]
  | String c r =>
      if Ascii.eqb c "," then EmptyString :: splitCommas r
      else match splitCommas r with
           | [] => [String c EmptyString]
           | h :: tl => String c h :: tl
           end
  end.

Definition hasColumn (tbl : Table) (c : string) : bool :=
  existsb (String.eqb c) (columns tbl).

(** A row passes the filters when each named field is not NULL and matches
    its pattern. *)
Definition passes (filters : list (string * string)) (row : Row) : bool :=
  forallb (fun f => match field (fst f) row with
                    | Some v => ilikeMatch v (snd f)
                    | None => false
                    end) filters.

Definition project (cols : list string) (row : Row) : Row :=
  filter (fun kv => existsb (String.eqb (fst kv)) cols) row.

(** Modelled from the spec: running a query on the external store.  The
    answer tells an empty result from a failure (Section 6): an unknown
    table or column is an error response (the connector resolves, it does
    not reject); otherwise the answer has the rows that pass every filter,
    in table order, cut at the limit. *)
Definition answer (db : t) (q : Query) : PostgrestResponse :=
  match table (from q) db with
  | None =>
      {| error := Some {| message := "relation does not exist" |};
         data := None |}
  | Some tbl =>
      let cols := splitCommas (select q) in
      if forallb (hasColumn tbl) (cols ++ map fst (ilike q))%list
      then {| error := None;
              data := Some (firstn (limit q)
                              (map (project cols)
                                 (filter (passes (ilike q)) (rows tbl)))) |}
      else {| error := Some {| message := "column does not exist" |};
              data := None |}
  end.

Definition run (db : t) : Connector := resolving (answer db).

(** The store holds a record for a query: the table exists with every
    column the query names, and one of its rows passes the filters. *)
Definition Holds (db : t) (q : Query) : Prop :=
  exists tbl row,
    table (from q) db = Some tbl /\
    forallb (hasColumn tbl) (splitCommas (select q) ++ map fst (ilike q))%list = true /\
    In row (rows tbl) /\
    passes (ilike q) row = true.

(** The columns of the two schema variants. *)
Definition legacyColumns : list string :=
  ["drug1"; "drug2"; "severity"; "description"; "interaction"].

Definition ddinterColumns : list string :=
  ["primary_drug_name"; "secondary_drug_name"; "interaction_severity"].

End Store.

(** ** Examples *)

Definition warfarinAspirin : Store.t :=
  [("drug_interactions",
    {| Store.columns := Store.legacyColumns;
       Store.rows := [[("drug1", "warfarin"); ("drug2", "aspirin");
                       ("severity", "Major bleeding risk")]] |})].

Definition metforminLisinopril : Store.t :=
  [("DrugInteraction",
    {| Store.columns := Store.ddinterColumns;
       Store.rows := [[("primary_drug_name", "metformin");
                       ("secondary_drug_name", "lisinopril");
                       ("interaction_severity",
                        "no significant interaction - minor monitoring advised")]] |})].

(** A legacy table that lists one pair in both orders, with two severities. *)
Definition bothOrders : Store.t :=
  [("drug_interactions",
    {| Store.columns := Store.legacyColumns;
       Store.rows := [[("drug1", "warfarin"); ("drug2", "aspirin");
                       ("severity", "Major")];
                      [("drug1", "aspirin"); ("drug2", "warfarin");
                       ("severity", "Minor")]] |})].

(** ** Vocabulary of the statements *)

(** The like pattern built from a normalized name. *)
Definition likeOf (normalized : string) : string := "%" ++ normalized ++ "%".

(** The four sub-queries of one source, in the order the specification
    lists them: Variant A and Variant B with the names as given, then
    Variant A and Variant B with the names swapped. *)
Definition subQueries (normalizedA normalizedB tableName : string) : list Query :=
  [ variantA tableName (likeOf normalizedA) (likeOf normalizedB);
    variantB tableName (likeOf normalizedA) (likeOf normalizedB);
    variantA tableName (likeOf normalizedB) (likeOf normalizedA);
    variantB tableName (likeOf normalizedB) (likeOf normalizedA) ].

(** All sub-queries of a resolution: source by source. *)
Definition plan (env : Env) (normalizedA normalizedB : string) : list Query :=
  flat_map (subQueries normalizedA normalizedB) (tableCandidates env).

(** The list up to and including its first element satisfying [p] (the
    whole list when there is none). *)
Fixpoint throughFirst {A} (p : A -> bool) (l : list A) : list A :=
  match l with
  | [] => []
  | x :: rest => if p x then [x] else x :: throughFirst p rest
  end.

(** How a connector treats a query: the record it returns, if any; whether
    the call throws; the error object of its answer, if any. *)
Definition recordOf (supabase : Connector) (q : Query) : option Row :=
  match supabase q with
  | Rejected => None
  | Fulfilled r => firstRow r
  end.

Definition rejects (supabase : Connector) (q : Query) : bool :=
  match supabase q with
  | Rejected => true
  | Fulfilled _ => false
  end.

Definition errorOf (supabase : Connector) (q : Query) : option PostgrestError :=
  match supabase q with
  | Rejected => None
  | Fulfilled r => error r
  end.

(** The [console.error] line for a source whose sub-queries are [qs]. *)
Definition errorLine (supabase : Connector) (tableName : string)
  (qs : list Query) : list string :=
  ["Supabase read errors for table " ++ tableName ++ ":";
   join " | " (messages (map (errorOf supabase) qs))].

(** The sub-queries of one source, each with the way its record is turned
    into the result. *)
Definition attempts (normalizedA normalizedB tableName : string)
  : list (Query * (Row -> DrugInteraction)) :=
  [ (variantA tableName (likeOf normalizedA) (likeOf normalizedB), asDrugInteraction);
    (variantB tableName (likeOf normalizedA) (likeOf normalizedB), ofDDInterRow);
    (variantA tableName (likeOf normalizedB) (likeOf normalizedA), asDrugInteraction);
    (variantB tableName (likeOf normalizedB) (likeOf normalizedA), ofDDInterRow) ].

(** A sub-query ends the work on its source: it returns a record, or the
    call throws. *)
Definition stops (supabase : Connector) (q : Query) : bool :=
  rejects supabase q || isSome (recordOf supabase q).

(** The result of the first attempt that returns a record, unless an
    earlier call throws. *)
Fixpoint firstRecord (supabase : Connector)
  (l : list (Query * (Row -> DrugInteraction))) : option DrugInteraction :=
  match l with
  | [] => None
  | (q, convert) :: rest =>
      match supabase q with
      | Rejected => None
      | Fulfilled r =>
          match firstRow r with
          | Some row => Some (convert row)
          | None => firstRecord supabase rest
          end
      end
  end.

(** The [console.error] lines of one source: one line when its four calls
    all resolve, none returns a record and some answer has an error. *)
Definition tableErrorLines (supabase : Connector) (normalizedA normalizedB : string)
  (tableName : string) : list (list string) :=
  let qs := subQueries normalizedA normalizedB tableName in
  if existsb (stops supabase) qs then []
  else if existsb (fun q => isSome (errorOf supabase q)) qs
       then [errorLine supabase tableName qs]
       else [].

(** Over the sources in order, until one gives a record: the record, the
    queries sent and the lines logged. *)
Fixpoint resultOver (supabase : Connector) (a b : string) (tables : list string)
  : option DrugInteraction :=
  match tables with
  | [] => None
  | t :: rest =>
      match firstRecord supabase (attempts a b t) with
      | Some i => Some i
      | None => resultOver supabase a b rest
      end
  end.

Fixpoint sentOver (supabase : Connector) (a b : string) (tables : list string)
  : list Query :=
  match tables with
  | [] => []
  | t :: rest =>
      (throughFirst (stops supabase) (subQueries a b t) ++
       if isSome (firstRecord supabase (attempts a b t)) then []
       else sentOver supabase a b rest)%list
  end.

Fixpoint linesOver (supabase : Connector) (a b : string) (tables : list string)
  : list (list string) :=
  match tables with
  | [] => []
  | t :: rest =>
      (tableErrorLines supabase a b t ++
       if isSome (firstRecord supabase (attempts a b t)) then []
       else linesOver supabase a b rest)%list
  end.

(** The record of one name order in one source: Variant A, then Variant B. *)
Definition ordered (supabase : Connector) (first second tableName : string)
  : option DrugInteraction :=
  firstRecord supabase
    [ (variantA tableName (likeOf first) (likeOf second), asDrugInteraction);
      (variantB tableName (likeOf first) (likeOf second), ofDDInterRow) ].

(** The store holds, in a source, a record matching the pair in the order
    (first, second), in either shape. *)
Definition HoldsPair (db : Store.t) (first second tableName : string) : Prop :=
  Store.Holds db (variantA tableName (likeOf first) (likeOf second)) \/
  Store.Holds db (variantB tableName (likeOf first) (likeOf second)).

(** [t] is [s] without its surrounding white space: [s] is [t] between two
    runs of white space, and [t] neither begins nor ends with white space. *)
Definition Trimmed (s t : string) : Prop :=
  exists l r, s = l ++ t ++ r /\
              allWhiteSpace l = true /\ allWhiteSpace r = true /\
              headSpace t = false /\ lastSpace t = false.

(** The two successful answers. *)
Definition matchedResponse (s1 s2 : string) (i : DrugInteraction) : NextResponse :=
  {| status := 200;
     body := InteractionBody
       {| drug1 := Some (trim s1);
          drug2 := Some (trim s2);
          severity := severity i;
          description := description i;
          interaction := interaction i |} |}.

Definition fallbackResponse (s1 s2 : string) : NextResponse :=
  {| status := 200;
     body := InteractionBody
       {| drug1 := Some (trim s1);
          drug2 := Some (trim s2);
          severity := Some "None";
          description := Some fallbackDescription;
          interaction := Some fallbackInteraction |} |}.

Definition respond (s1 s2 : string) (found : option DrugInteraction) : NextResponse :=
  match found with
  | Some i => matchedResponse s1 s2 i
  | None => fallbackResponse s1 s2
  end.

(** The closed set of severities, as the strings of a response. *)
Definition severityTexts : list string := map Severity.text Severity.all.

(** The severity field of a response body, when it carries an interaction. *)
Definition severityOf (r : NextResponse) : option string :=
  match body r with
  | InteractionBody d => severity d
  | ErrorBody _ => None
  end.

(** The rank of a severity in the priority order of [normalizeSeverity]. *)
Definition rank (s : Severity.t) : nat :=
  match s with
  | Severity.Major => 3
  | Severity.Moderate => 2
  | Severity.Minor => 1
  | Severity.None => 0
  end.

(** A request field that is not a string. *)
Definition notString (v : jsval) : bool :=
  match v with
  | JStr _ => false
  | _ => true
  end.

(** The two error answers of the route, with their events. *)
Definition badRequest : NextResponse * list Event :=
  ({| status := 400; body := ErrorBody "Both drug names are required" |}, []).

Definition internalError : NextResponse * list Event :=
  ({| status := 500; body := ErrorBody "Internal server error" |},
   [ConsoleError ["Error checking drug interaction:"]]).

(** A request with a truthy field that is not a string, or that did not
    parse. *)
Definition Malformed (request : RequestJson) : Prop :=
  request = Unparsable \/
  exists d1 d2, request = Fields d1 d2 /\
                truthy d1 = true /\ truthy d2 = true /\
                (notString d1 = true \/ notString d2 = true).

(** ** The resolution, stated on its own *)

(** The order of resolution written out independently of the handler: the
    queries as records, "returns a record" on the fields of the answer. *)
Module Resolution.

(** Shape A : the direct columns, one record at most. *)
Definition shapeA (source first second : string) : Query :=
  {| from := source;
     select := "drug1,drug2,severity,description,interaction";
     ilike := [("drug1", "%" ++ first ++ "%"); ("drug2", "%" ++ second ++ "%")];
     limit := 1 |}.

(** Shape B : the paired-name columns, one record at most. *)
Definition shapeB (source first second : string) : Query :=
  {| from := source;
     select := "primary_drug_name,secondary_drug_name,interaction_severity";
     ilike := [("primary_drug_name", "%" ++ first ++ "%");
               ("secondary_drug_name", "%" ++ second ++ "%")];
     limit := 1 |}.

(** The source identifiers, in order; the first can be overridden. *)
Definition sources (override : Env) : list string :=
  [ match override with
    | Some name => if name =? "" then "drug_interactions" else name
    | None => "drug_interactions"
    end;
    "DrugInteraction";
    "druginteraction" ].

(** The four sub-queries of a source for the names (A, B), in order. *)
Definition subQueries (a b source : string) : list Query :=
  [ shapeA source a b; shapeB source a b; shapeA source b a; shapeB source b a ].

(** The call resolves, without an error object and with at least one row. *)
Definition returnsRecord (supabase : Connector) (q : Query) : bool :=
  match supabase q with
  | Rejected => false
  | Fulfilled {| error := Some _ |} => false
  | Fulfilled {| error := None; data := None |} => false
  | Fulfilled {| error := None; data := Some [] |} => false
  | Fulfilled {| error := None; data := Some (_ :: _) |} => true
  end.

(** The call throws. *)
Definition throws (supabase : Connector) (q : Query) : bool :=
  match supabase q with
  | Rejected => true
  | Fulfilled _ => false
  end.

(** The message of the error object the call answers, if it answers one. *)
Definition errorMessage (supabase : Connector) (q : Query) : option string :=
  match supabase q with
  | Fulfilled {| error := Some e |} => Some (message e)
  | _ => None
  end.

Fixpoint somes {A} (l : list (option A)) : list A :=
  match l with
  | [] => []
  | Some x :: rest => x :: somes rest
  | None :: rest => somes rest
  end.

(** The sub-queries sent to one source: in order, up to and including the
    first that returns a record or throws. *)
Definition sentTo (supabase : Connector) (a b source : string) : list Query :=
  throughFirst (fun q => returnsRecord supabase q || throws supabase q)
    (subQueries a b source).

(** The source gave a record: one of the sub-queries sent returned one. *)
Definition gaveRecord (supabase : Connector) (a b source : string) : bool :=
  existsb (returnsRecord supabase) (sentTo supabase a b source).

(** The queries of a resolution: source after source, until one gives a
    record. *)
Fixpoint sent (supabase : Connector) (a b : string) (l : list string)
  : list Query :=
  match l with
  | [] => []
  | source :: rest =>
      (sentTo supabase a b source ++
       if gaveRecord supabase a b source then [] else sent supabase a b rest)%list
  end.

(** The line logged for one source: none when a sub-query returns a record
    or throws; else one line with the messages of the error objects, in
    order, when there is any. *)
Definition loggedFor (supabase : Connector) (a b source : string)
  : list (list string) :=
  let qs := subQueries a b source in
  if existsb (fun q => returnsRecord supabase q || throws supabase q) qs then []
  else match somes (map (errorMessage supabase) qs) with
       | [] => []
       | msgs => [["Supabase read errors for table " ++ source ++ ":";
                   join " | " msgs]]
       end.

(** The lines logged by a resolution. *)
Fixpoint logged (supabase : Connector) (a b : string) (l : list string)
  : list (list string) :=
  match l with
  | [] => []
  | source :: rest =>
      (loggedFor supabase a b source ++
       if gaveRecord supabase a b source then [] else logged supabase a b rest)%list
  end.

End Resolution.

(** A connector whose paired-name queries throw, and whose other queries
    find no row. *)
Definition throwingShapeB : Connector :=
  fun q =>
    if select q =? "primary_drug_name,secondary_drug_name,interaction_severity"
    then Rejected
    else Fulfilled {| error := None; data := Some [] |}.

(** ** The server-side client factory *)

Module SupabaseServer.

(** The four variables of [process.env] that the factory reads. *)
Record ProcessEnv : Type :=
  { SUPABASE_URL : option string;
    NEXT_PUBLIC_SUPABASE_URL : option string;
    SUPABASE_SERVICE_ROLE_KEY : option string;
    NEXT_PUBLIC_SUPABASE_ANON_KEY : option string }.

(** The arguments of [createClient(url, keyToUse)]. *)
Record ClientArgs : Type :=
  { supabaseUrl : string;
    supabaseKey : string }.

Definition urlWarning : string :=
  "Supabase URL missing: set SUPABASE_URL or NEXT_PUBLIC_SUPABASE_URL".

Definition keyWarning : string :=
  "Supabase key missing: set SUPABASE_SERVICE_ROLE_KEY (preferred) or NEXT_PUBLIC_SUPABASE_ANON_KEY".

(** The factory: what it passes to [createClient], and its [console.warn]
    lines in order. *)
Definition getSupabaseServerClient (env : ProcessEnv) : ClientArgs * list string :=
  let url := orElse (SUPABASE_URL env) (orElse (NEXT_PUBLIC_SUPABASE_URL env) "") in
  let serviceKey := SUPABASE_SERVICE_ROLE_KEY env in
  let anonKey := NEXT_PUBLIC_SUPABASE_ANON_KEY env in
  let warnUrl := if url =? "" then [urlWarning] else [] in
  let keyToUse := orElse serviceKey (orElse anonKey "") in
  let warnKey := if keyToUse =? "" then [keyWarning] else [] in
  ({| supabaseUrl := url; supabaseKey := keyToUse |}, (warnUrl ++ warnKey)%list).

End SupabaseServer.

(** ** The whole route *)

Module Route.

(** [createClient(url, key)] of the Supabase library: it throws ([None]),
    or it gives the client, seen here as what its queries do. *)
Definition CreateClient : Type := SupabaseServer.ClientArgs -> option Connector.

(** The exported [POST], from the first statement of its [try]: the client
    is built by [getSupabaseServerClient()], and when that throws the
    [catch] answers 500 before the request is read.  The result is the
    [console.warn] lines of the factory, then the answer with its events.
    [env] is the table override, the fifth variable the route reads. *)
Definition POST (createClient : CreateClient)
  (processEnv : SupabaseServer.ProcessEnv) (env : Env) (request : RequestJson)
  : list string * (NextResponse * list Event) :=
  let (args, warnings) := SupabaseServer.getSupabaseServerClient processEnv in
  (warnings,
   match createClient args with
   | None =>
       ({| status := 500; body := ErrorBody "Internal server error" |},
        [ConsoleError ["Error checking drug interaction:"]])
   | Some supabase => POST env supabase request
   end).

(** The client is built for this environment, and reads as [supabase]. *)
Definition Built (createClient : CreateClient)
  (processEnv : SupabaseServer.ProcessEnv) (supabase : Connector) : Prop :=
  createClient (fst (SupabaseServer.getSupabaseServerClient processEnv))
  = Some supabase.

(** A [createClient] that refuses an empty URL and an empty key, as the
    library does, and otherwise reads the reference store [db]. *)
Definition reference (db : Store.t) : CreateClient :=
  fun args =>
    if (SupabaseServer.supabaseUrl args =? "") ||
       (SupabaseServer.supabaseKey args =? "")
    then None
    else Some (Store.run db).

(** An environment with a URL and an anon key, and one with nothing. *)
Definition configured : SupabaseServer.ProcessEnv :=
  {| SupabaseServer.SUPABASE_URL := Some "https://example.supabase.co";
     SupabaseServer.NEXT_PUBLIC_SUPABASE_URL := None;
     SupabaseServer.SUPABASE_SERVICE_ROLE_KEY := None;
     SupabaseServer.NEXT_PUBLIC_SUPABASE_ANON_KEY := Some "anon-key" |}.

Definition unconfigured : SupabaseServer.ProcessEnv :=
  {| SupabaseServer.SUPABASE_URL := None;
     SupabaseServer.NEXT_PUBLIC_SUPABASE_URL := None;
     SupabaseServer.SUPABASE_SERVICE_ROLE_KEY := None;
     SupabaseServer.NEXT_PUBLIC_SUPABASE_ANON_KEY := None |}.

End Route.

(** ** The page *)

Module Page.

(** The state of the component [Home]. *)
Record State : Type :=
  { drug1 : string;
    drug2 : string;
    loading : bool;
    result : option Body;
    error : option string;
    showResults : bool }.

(** A call of one of the state setters. *)
Inductive Update : Type :=
| SetLoading (b : bool)
| SetResult (r : option Body)
| SetError (e : option string)
| SetShowResults (b : bool).

Definition apply (st : State) (u : Update) : State :=
  match u with
  | SetLoading b =>
      {| drug1 := drug1 st; drug2 := drug2 st; loading := b;
         result := result st; error := error st; showResults := showResults st |}
  | SetResult r =>
      {| drug1 := drug1 st; drug2 := drug2 st; loading := loading st;
         result := r; error := error st; showResults := showResults st |}
  | SetError e =>
      {| drug1 := drug1 st; drug2 := drug2 st; loading := loading st;
         result := result st; error := e; showResults := showResults st |}
  | SetShowResults b =>
      {| drug1 := drug1 st; drug2 := drug2 st; loading := loading st;
         result := result st; error := error st; showResults := b |}
  end.

(** The state after a run of setter calls. *)
Definition after (st : State) (updates : list Update) : State :=
  fold_left apply updates st.

(** [fetch("/api/drug-interaction", ...)] on a JSON body: the promise
    rejects ([None]), or it resolves with a response whose body parses. *)
Definition Fetch : Type := RequestJson -> option NextResponse.

(** [response.ok]. *)
Definition ok (response : NextResponse) : bool :=
  ((200 <=? status response) && (status response <=? 299))%nat.

Definition failureMessage : string :=
  "An error occurred while checking drug interactions. Please try again.".

(** [checkInteraction]: the setter calls it makes, in order, and the
    request bodies it sends. *)
Definition checkInteraction (fetch : Fetch) (st : State)
  : list Update * list RequestJson :=
  if (trim (drug1 st) =? "") || (trim (drug2 st) =? "")
  then ([SetError (Some "Please enter both drug names")], [])
  else
    let request := Fields (JStr (trim (drug1 st))) (JStr (trim (drug2 st))) in
    let answered :=
      match fetch request with
      | Some response =>
          if ok response
          then [SetResult (Some (body response)); SetShowResults true]
          else [SetError (Some failureMessage)]
      | None => [SetError (Some failureMessage)]
      end in
    (([SetLoading true; SetError None; SetResult None] ++ answered ++
      [SetLoading false])%list,
     [request]).

(** The page served by the route itself, over a network that delivers. *)
Definition served (createClient : Route.CreateClient)
  (processEnv : SupabaseServer.ProcessEnv) (env : Env) : Fetch :=
  fun request => Some (fst (snd (Route.POST createClient processEnv env request))).

(** [getSeverityIcon]: the icon component and its colour. *)
Definition getSeverityIcon (severity : string) : string * string :=
  if severity =? "Major" then ("XCircle", "#DE6063")
  else if severity =? "Moderate" then ("AlertTriangle", "#1C5378")
  else if severity =? "Minor" then ("Info", "#464C43")
  else if severity =? "None" then ("CheckCircle", "#19343F")
  else ("Info", "#464C43").

Record SeverityConfig : Type :=
  { bg : string;
    border : string;
    text : string;
    badge : string;
    card : string;
    glow : string;
    particles : string }.

Definition getSeverityConfig (severity : string) : SeverityConfig :=
  if severity =? "Major" then
    {| bg := "bg-red-600";
       border := "border-red-400/30";
       text := "text-red-300";
       badge := "bg-red-500/20 text-red-300 border-red-400/50";
       card := "border-l-red-500";
       glow := "shadow-red-500/30";
       particles := "bg-red-400" |}
  else if severity =? "Moderate" then
    {| bg := "bg-blue-600";
       border := "border-blue-400/30";
       text := "text-blue-300";
       badge := "bg-blue-500/20 text-blue-300 border-blue-400/50";
       card := "border-l-blue-500";
       glow := "shadow-blue-500/30";
       particles := "bg-blue-400" |}
  else if severity =? "Minor" then
    {| bg := "bg-gray-600";
       border := "border-gray-400/30";
       text := "text-gray-300";
       badge := "bg-gray-500/20 text-gray-300 border-gray-400/50";
       card := "border-l-gray-500";
       glow := "shadow-gray-500/30";
       particles := "bg-gray-400" |}
  else if severity =? "None" then
    {| bg := "bg-green-600";
       border := "border-green-400/30";
       text := "text-green-300";
       badge := "bg-green-500/20 text-green-300 border-green-400/50";
       card := "border-l-green-500";
       glow := "shadow-green-500/30";
       particles := "bg-green-400" |}
  else
    {| bg := "bg-gray-600";
       border := "border-gray-400/30";
       text := "text-gray-300";
       badge := "bg-gray-500/20 text-gray-300 border-gray-400/50";
       card := "border-l-gray-500";
       glow := "shadow-gray-500/30";
       particles := "bg-gray-400" |}.

Definition getSeverityAdvice (severity : string) : list string :=
  if severity =? "Major" then
    [ "Avoid using these together if possible; ask your prescriber for alternatives.";
      "If combination is necessary, increase monitoring and consider dose/timing adjustments.";
      "Seek urgent care if severe symptoms appear (e.g., bleeding, chest pain, confusion)." ]
  else if severity =? "Moderate" then
    [ "Use with caution and monitor for reduced efficacy or increased side effects.";
      "Consider spacing doses (when clinically appropriate) and review other interacting meds.";
      "Contact your provider if new or persistent symptoms develop." ]
  else if severity =? "Minor" then
    [ "Low likelihood of serious issues; mild effects may occur.";
      "No routine changes needed; continue usual monitoring." ]
  else
    [ "No significant interaction found in our database.";
      "Still monitor for unexpected symptoms and consult your provider if concerned." ].

(** What the result modal shows for a severity: icon, palette, advice. *)
Definition display (severity : string)
  : (string * string) * SeverityConfig * list string :=
  (getSeverityIcon severity, getSeverityConfig severity, getSeverityAdvice severity).

End Page.

(** * Properties *)

(** ** Strings *)

Lemma startsWith_append (s t : string) :
  startsWith s t = true <-> exists r, s = t ++ r.
Proof.
  revert s; induction t as [|b t IH]; intros s; simpl.
  - split; [intros _; now exists s | reflexivity].
  - destruct s as [|a s].
    + split; [discriminate | intros [r H]; discriminate].
    + rewrite andb_true_iff, Ascii.eqb_eq, IH. split.
      * intros [-> [r ->]]. now exists r.
      * intros [r H]. injection H as -> ->. split; [reflexivity | now exists r].
Qed.

Lemma includes_Occurs (s t : string) :
  includes s t = true <-> Occurs t s.
Proof.
  split.
  - induction s as [|a s IH]; simpl; rewrite orb_true_iff.
    + intros [H | H]; [| discriminate].
      apply startsWith_append in H. destruct H as [r ->]. now exists "", r.
    + intros [H | H].
      * apply startsWith_append in H. destruct H as [r ->]. now exists "", r.
      * destruct (IH H) as (pre & post & ->). now exists (String a pre), post.
  - intros (pre & post & ->).
    induction pre as [|a pre IH]; simpl.
    + assert (H : startsWith (t ++ post) t = true)
        by (apply startsWith_append; now exists post).
      destruct (t ++ post); simpl; rewrite H; reflexivity.
    + rewrite IH. apply orb_true_r.
Qed.

Lemma includes_not_Occurs (s t : string) :
  includes s t = false <-> ~ Occurs t s.
Proof.
  rewrite <- includes_Occurs. destruct (includes s t); split; intros H;
    congruence.
Qed.

Lemma trimStart_spec (s : string) :
  exists l, s = l ++ trimStart s /\ allWhiteSpace l = true /\
            headSpace (trimStart s) = false.
Proof.
  induction s as [|c r (l & E & W & H)]; simpl.
  - now exists "".
  - destruct (isWhiteSpace c) eqn:Hc.
    + exists (String c l). simpl. rewrite Hc, W. now rewrite <- E.
    + exists "". simpl. now rewrite Hc.
Qed.

Lemma trimEnd_spec (s : string) :
  exists r, s = trimEnd s ++ r /\ allWhiteSpace r = true /\
            lastSpace (trimEnd s) = false.
Proof.
  induction s as [|c s (r & E & W & H)]; simpl.
  - now exists "".
  - destruct (trimEnd s) as [|d u] eqn:Ht.
    + destruct (isWhiteSpace c) eqn:Hc.
      * exists (String c r). simpl in *. rewrite Hc, W. now rewrite E.
      * exists r. simpl in *. rewrite Hc. now rewrite E.
    + exists r. simpl in *. now rewrite <- E.
Qed.

Lemma trimEnd_headSpace (s : string) :
  headSpace s = false -> headSpace (trimEnd s) = false.
Proof.
  destruct s as [|c s]; simpl; [reflexivity |].
  intros Hc. destruct (trimEnd s); [rewrite Hc|]; simpl; auto.
Qed.

(** [trim] removes a run of white space at each end and nothing else, and
    what is left neither begins nor ends with white space. *)
Lemma trim_spec (s : string) : Trimmed s (trim s).
Proof.
  destruct (trimStart_spec s) as (l & E & Wl & Hh).
  destruct (trimEnd_spec (trimStart s)) as (r & E' & Wr & Hl).
  exists l, r. unfold trim. rewrite <- E', <- E.
  repeat split; auto using trimEnd_headSpace.
Qed.

Lemma lowerChar_whiteSpace (c : ascii) :
  isWhiteSpace c = true -> lowerChar c = c.
Proof.
  destruct c as [[] [] [] [] [] [] [] []]; vm_compute; congruence.
Qed.

Lemma toLowerCase_allWhiteSpace (s : string) :
  allWhiteSpace s = true -> toLowerCase s = s.
Proof.
  induction s as [|c r IH]; simpl; [reflexivity |].
  rewrite andb_true_iff. intros [Hc Hr].
  now rewrite (lowerChar_whiteSpace c Hc), (IH Hr).
Qed.

Lemma trim_allWhiteSpace (s : string) :
  allWhiteSpace s = true -> trim s = "".
Proof.
  unfold trim. induction s as [|c r IH]; simpl; [reflexivity |].
  rewrite andb_true_iff. intros [Hc Hr]. rewrite Hc. auto.
Qed.

(** A name made of white space only normalizes to the empty string. *)
Lemma normalizeDrugName_blank (s : string) :
  allWhiteSpace s = true -> normalizeDrugName s = "".
Proof.
  intros H. unfold normalizeDrugName.
  rewrite (toLowerCase_allWhiteSpace s H). now apply trim_allWhiteSpace.
Qed.

(** ** normalizeSeverity *)

(** The result is always one of the four members of the union. *)
Lemma normalizeSeverity_closed (sev : option string) :
  In (normalizeSeverity sev) Severity.all.
Proof.
  unfold Severity.all. destruct (normalizeSeverity sev); simpl; auto.
Qed.

(** C3: [normalizeSeverity] is defined on every string and on an absent
    value; on the lower-cased text it answers Major exactly when "major"
    occurs, Moderate exactly when "major" does not occur and "moderate"
    does, Minor exactly when neither occurs and "minor" does, and None
    exactly when none of the three occurs.  An absent or empty value gives
    None, and a text with both "major" and "minor" gives Major. *)
Theorem normalizeSeverity_priority (sev : option string) :
  let s := toLowerCase (orElse sev "") in
  (normalizeSeverity sev = Severity.Major <-> Occurs "major" s) /\
  (normalizeSeverity sev = Severity.Moderate <->
     ~ Occurs "major" s /\ Occurs "moderate" s) /\
  (normalizeSeverity sev = Severity.Minor <->
     ~ Occurs "major" s /\ ~ Occurs "moderate" s /\ Occurs "minor" s) /\
  (normalizeSeverity sev = Severity.None <->
     ~ Occurs "major" s /\ ~ Occurs "moderate" s /\ ~ Occurs "minor" s) /\
  normalizeSeverity None = Severity.None /\
  normalizeSeverity (Some "") = Severity.None /\
  normalizeSeverity (Some "this is a major but also minor note") = Severity.Major.
Proof.
  intros s. unfold normalizeSeverity. fold s.
  destruct (includes s "major") eqn:H1;
    [apply includes_Occurs in H1 | apply includes_not_Occurs in H1];
  (destruct (includes s "moderate") eqn:H2;
    [apply includes_Occurs in H2 | apply includes_not_Occurs in H2]);
  (destruct (includes s "minor") eqn:H3;
    [apply includes_Occurs in H3 | apply includes_not_Occurs in H3]);
  repeat split; intros; try discriminate; try tauto.
Qed.

(** ** Events *)

Lemma queries_app (a b : list Event) :
  queries (a ++ b) = (queries a ++ queries b)%list.
Proof.
  induction a as [|[q|l] a IH]; simpl; [reflexivity | now rewrite IH | exact IH].
Qed.

Lemma errorLines_app (a b : list Event) :
  errorLines (a ++ b) = (errorLines a ++ errorLines b)%list.
Proof.
  induction a as [|[q|l] a IH]; simpl; [reflexivity | exact IH | now rewrite IH].
Qed.

(** ** The route on two non-empty strings *)

Lemma truthy_JStr (s : string) : s <> "" -> truthy (JStr s) = true.
Proof.
  intros H. simpl. destruct (String.eqb_spec s ""); [contradiction | reflexivity].
Qed.

(** The loop over the candidate tables never throws: what a table's lookup
    throws is caught, and the loop goes on. *)
Lemma forTableCandidates_normal (supabase : Connector) (n1 n2 : string)
  (tables : list string) :
  exists found, fst (forTableCandidates supabase n1 n2 tables) = Normal found.
Proof.
  induction tables as [|t rest [found IH]]; simpl.
  - now exists None.
  - destruct (findInteractionInTable supabase n1 n2 t) as [[[i|]|] ev]; simpl.
    + now exists (Some i).
    + destruct (forTableCandidates supabase n1 n2 rest) as [c ev'].
      simpl in *. now exists found.
    + destruct (forTableCandidates supabase n1 n2 rest) as [c ev'].
      simpl in *. now exists found.
Qed.

(** On two non-empty strings the route answers from what the loop found,
    and its events are those of the loop. *)
Lemma POST_valid (env : Env) (supabase : Connector) (s1 s2 : string) :
  s1 <> "" -> s2 <> "" ->
  exists found,
    forTableCandidates supabase (normalizeDrugName s1) (normalizeDrugName s2)
      (tableCandidates env)
    = (Normal found,
       snd (POST env supabase (Fields (JStr s1) (JStr s2)))) /\
    fst (POST env supabase (Fields (JStr s1) (JStr s2))) = respond s1 s2 found.
Proof.
  intros H1 H2. unfold POST, handler.
  cbn [requestJson bind ret receiver app]. 
  rewrite (truthy_JStr s1 H1), (truthy_JStr s2 H2).
  cbn [negb orb bind ret receiver app].
  destruct (forTableCandidates_normal supabase (normalizeDrugName s1)
              (normalizeDrugName s2) (tableCandidates env)) as [found Hf].
  destruct (forTableCandidates supabase (normalizeDrugName s1)
              (normalizeDrugName s2) (tableCandidates env)) as [c ev].
  simpl in Hf. subst c. exists found.
  destruct found; cbn; rewrite app_nil_r; split; reflexivity.
Qed.

(** ** One source *)

(** What the lookup in one table does, for every connector: the result, the
    queries sent and the lines logged. *)
Lemma findInteractionInTable_spec (supabase : Connector) (n1 n2 t : string) :
  let r := tryCatch (findInteractionInTable supabase n1 n2 t) (ret None) in
  fst r = Normal (firstRecord supabase (attempts n1 n2 t)) /\
  queries (snd r) = throughFirst (stops supabase) (subQueries n1 n2 t) /\
  errorLines (snd r) = tableErrorLines supabase n1 n2 t.
Proof.
  unfold findInteractionInTable, tableErrorLines, errorLine, subQueries, attempts.
  fold (likeOf n1). fold (likeOf n2).
  unfold stops, recordOf, await, rejects, errorOf.
  cbn [existsb throughFirst map firstRecord].
  destruct (supabase (variantA t (likeOf n1) (likeOf n2))) as [|r1]; [cbn; auto|].
  cbn [bind]. destruct (firstRow r1); [cbn; auto|].
  destruct (supabase (variantB t (likeOf n1) (likeOf n2))) as [|r2]; [cbn; auto|].
  cbn [bind]. destruct (firstRow r2); [cbn; auto|].
  destruct (supabase (variantA t (likeOf n2) (likeOf n1))) as [|r3]; [cbn; auto|].
  cbn [bind]. destruct (firstRow r3); [cbn; auto|].
  destruct (supabase (variantB t (likeOf n2) (likeOf n1))) as [|r4]; [cbn; auto|].
  cbn [bind]. destruct (firstRow r4); [cbn; auto|].
  cbn [orb isSome]. rewrite !orb_false_r.
  destruct (isSome (error r1) || (isSome (error r2) || (isSome (error r3) || isSome (error r4)))); cbn; auto.
Qed.

(** ** The loop over the sources *)

Lemma forTableCandidates_spec (supabase : Connector) (n1 n2 : string)
  (tables : list string) :
  let r := forTableCandidates supabase n1 n2 tables in
  fst r = Normal (resultOver supabase n1 n2 tables) /\
  queries (snd r) = sentOver supabase n1 n2 tables /\
  errorLines (snd r) = linesOver supabase n1 n2 tables.
Proof.
  induction tables as [|t rest IH]; [cbn; auto|].
  destruct (findInteractionInTable_spec supabase n1 n2 t) as (R & Q & L).
  cbn [forTableCandidates resultOver sentOver linesOver].
  destruct (tryCatch (findInteractionInTable supabase n1 n2 t) (ret None))
    as [c ev]. cbn [fst snd] in R, Q, L. subst c.
  destruct (firstRecord supabase (attempts n1 n2 t)) as [i|].
  - cbn. rewrite !app_nil_r. auto.
  - cbn [bind isSome]. destruct (forTableCandidates supabase n1 n2 rest) as [c' ev'].
    cbn [fst snd] in *. destruct IH as (R' & Q' & L').
    rewrite queries_app, errorLines_app, Q, L, Q', L'. subst. auto.
Qed.

(** ** The route *)

(** On two non-empty strings: the answer, the queries sent and the lines
    logged, for every connector. *)
Lemma POST_spec (env : Env) (supabase : Connector) (s1 s2 : string) :
  s1 <> "" -> s2 <> "" ->
  let a := normalizeDrugName s1 in
  let b := normalizeDrugName s2 in
  let run := POST env supabase (Fields (JStr s1) (JStr s2)) in
  fst run = respond s1 s2 (resultOver supabase a b (tableCandidates env)) /\
  queries (snd run) = sentOver supabase a b (tableCandidates env) /\
  errorLines (snd run) = linesOver supabase a b (tableCandidates env).
Proof.
  intros H1 H2 a b run.
  destruct (POST_valid env supabase s1 s2 H1 H2) as (found & E & R).
  destruct (forTableCandidates_spec supabase a b (tableCandidates env))
    as (F & Q & L).
  fold a b in E. rewrite E in F, Q, L. cbn [fst snd] in F, Q, L.
  injection F as ->. auto.
Qed.

(** A missing or empty name is answered 400, and the store is not asked. *)
Lemma POST_requires_names (env : Env) (supabase : Connector) (d1 d2 : jsval) :
  truthy d1 = false \/ truthy d2 = false ->
  POST env supabase (Fields d1 d2) =
    ({| status := 400; body := ErrorBody "Both drug names are required" |}, []).
Proof.
  intros H. unfold POST, handler. cbn [requestJson bind ret app].
  assert (E : negb (truthy d1) || negb (truthy d2) = true).
  { destruct H as [-> | ->]; [reflexivity | apply orb_true_r]. }
  rewrite E. reflexivity.
Qed.

(** A truthy field that is not a string makes the route answer 500. *)
Lemma POST_status_200 (env : Env) (supabase : Connector) (request : RequestJson) :
  status (fst (POST env supabase request)) = 200 ->
  exists s1 s2, request = Fields (JStr s1) (JStr s2) /\ s1 <> "" /\ s2 <> "".
Proof.
  destruct request as [|d1 d2]; [discriminate|].
  destruct (truthy d1) eqn:T1; [| rewrite POST_requires_names by auto; discriminate].
  destruct (truthy d2) eqn:T2; [| rewrite POST_requires_names by auto; discriminate].
  unfold POST, handler. cbn [requestJson bind ret app]. rewrite T1, T2.
  destruct d1 as [| | | |s1|]; try (cbn; discriminate).
  destruct d2 as [| | | |s2|]; try (cbn; discriminate).
  intros _. exists s1, s2. repeat split.
  - intros ->. discriminate.
  - intros ->. discriminate.
Qed.

(** C7: in every successful response the fields drug1 and drug2 are the
    strings the caller sent, without their surrounding white space and in
    their original case; they come neither from the matched record nor
    from the lower-cased names. *)
Theorem response_echoes_trimmed_names (env : Env) (supabase : Connector)
  (request : RequestJson) :
  status (fst (POST env supabase request)) = 200 ->
  exists s1 s2 d,
    request = Fields (JStr s1) (JStr s2) /\
    body (fst (POST env supabase request)) = InteractionBody d /\
    drug1 d = Some (trim s1) /\ Trimmed s1 (trim s1) /\
    drug2 d = Some (trim s2) /\ Trimmed s2 (trim s2).
Proof.
  intros H. destruct (POST_status_200 env supabase request H)
    as (s1 & s2 & -> & H1 & H2).
  destruct (POST_spec env supabase s1 s2 H1 H2) as (R & _).
  rewrite R.
  destruct (resultOver supabase (normalizeDrugName s1) (normalizeDrugName s2)
              (tableCandidates env)) as [i|]; cbn;
    eexists s1, s2, _; repeat split; auto using trim_spec.
Qed.

Lemma response_echoes_trimmed_names_witness :
  exists s1 s2 d,
    Fields (JStr "Aspirin") (JStr " Warfarin ") = Fields (JStr s1) (JStr s2) /\
    body (fst (POST None (Store.run warfarinAspirin)
                 (Fields (JStr "Aspirin") (JStr " Warfarin ")))) = InteractionBody d /\
    drug1 d = Some (trim s1) /\ Trimmed s1 (trim s1) /\
    drug2 d = Some (trim s2) /\ Trimmed s2 (trim s2).
Proof.
  apply (response_echoes_trimmed_names None (Store.run warfarinAspirin)
           (Fields (JStr "Aspirin") (JStr " Warfarin "))).
  reflexivity.
Defined.

(** The record's own spelling is not what the response carries. *)
Example echo_keeps_caller_spelling :
  fst (POST None (Store.run warfarinAspirin)
         (Fields (JStr "Aspirin") (JStr " Warfarin "))) =
  {| status := 200;
     body := InteractionBody
       {| drug1 := Some "Aspirin";
          drug2 := Some "Warfarin";
          severity := Some "Major bleeding risk";
          description := None;
          interaction := None |} |}.
Proof. reflexivity. Qed.

(** ** No match: the fallback *)

Lemma firstRecord_none (supabase : Connector)
  (l : list (Query * (Row -> DrugInteraction))) :
  (forall q, In q (map fst l) -> recordOf supabase q = None) ->
  firstRecord supabase l = None.
Proof.
  induction l as [|[q c] l IH]; intros H; [reflexivity|].
  cbn [firstRecord]. assert (Hq := H q (or_introl eq_refl)).
  unfold recordOf in Hq. destruct (supabase q) as [|r]; [reflexivity|].
  rewrite Hq. apply IH. intros q' Hq'. apply H. now right.
Qed.

Lemma resultOver_none (supabase : Connector) (a b : string) (tables : list string) :
  (forall q, In q (flat_map (subQueries a b) tables) -> recordOf supabase q = None) ->
  resultOver supabase a b tables = None.
Proof.
  induction tables as [|t rest IH]; intros H; [reflexivity|].
  cbn [resultOver]. rewrite firstRecord_none.
  - apply IH. intros q Hq. apply H. cbn [flat_map]. apply in_or_app. now right.
  - intros q Hq. apply H. cbn [flat_map]. apply in_or_app. now left.
Qed.

(** C4: on two non-empty names, when no sub-query of any source returns a
    record (it answers no rows, answers an error, or throws), the route
    answers 200 with the fallback: severity None and the two fixed,
    non-empty texts, the second of which advises to consult a healthcare
    provider. *)
Theorem fallback_when_nothing_matches (env : Env) (supabase : Connector)
  (s1 s2 : string) :
  s1 <> "" -> s2 <> "" ->
  (forall q, In q (plan env (normalizeDrugName s1) (normalizeDrugName s2)) ->
             recordOf supabase q = None) ->
  fst (POST env supabase (Fields (JStr s1) (JStr s2))) =
    {| status := 200;
       body := InteractionBody
         {| drug1 := Some (trim s1);
            drug2 := Some (trim s2);
            severity := Some (Severity.text Severity.None);
            description := Some fallbackDescription;
            interaction := Some fallbackInteraction |} |} /\
  fallbackDescription <> "" /\ fallbackInteraction <> "" /\
  Occurs "always consult with your healthcare provider" fallbackInteraction.
Proof.
  intros H1 H2 H. destruct (POST_spec env supabase s1 s2 H1 H2) as (R & _).
  rewrite R, resultOver_none by exact H.
  repeat split; try discriminate.
  now apply includes_Occurs.
Qed.

Lemma fallback_when_nothing_matches_witness :
  fst (POST None (Store.run warfarinAspirin)
         (Fields (JStr "aspirin") (JStr "ibuprofen"))) =
    {| status := 200;
       body := InteractionBody
         {| drug1 := Some "aspirin";
            drug2 := Some "ibuprofen";
            severity := Some "None";
            description := Some fallbackDescription;
            interaction := Some fallbackInteraction |} |} /\
  fallbackDescription <> "" /\ fallbackInteraction <> "" /\
  Occurs "always consult with your healthcare provider" fallbackInteraction.
Proof.
  apply (fallback_when_nothing_matches None (Store.run warfarinAspirin)
           "aspirin" "ibuprofen").
  - discriminate.
  - discriminate.
  - intros q Hq. cbn in Hq.
    repeat (destruct Hq as [<- | Hq]; [reflexivity|]). contradiction.
Defined.

(** ** The order of the sub-queries *)

Lemma throughFirst_ext_in {A} (p q : A -> bool) (l : list A) :
  (forall x, In x l -> p x = q x) -> throughFirst p l = throughFirst q l.
Proof.
  induction l as [|x l IH]; intros H; [reflexivity|]. cbn.
  rewrite (H x (or_introl eq_refl)), IH; [reflexivity|].
  intros y Hy. apply H. now right.
Qed.

Lemma existsb_ext_in {A} (p q : A -> bool) (l : list A) :
  (forall x, In x l -> p x = q x) -> existsb p l = existsb q l.
Proof.
  induction l as [|x l IH]; intros H; [reflexivity|]. cbn.
  rewrite (H x (or_introl eq_refl)), IH; [reflexivity|].
  intros y Hy. apply H. now right.
Qed.

Lemma tableCandidates_sources (env : Env) :
  tableCandidates env = Resolution.sources env.
Proof. destruct env as [name|]; reflexivity. Qed.

Lemma returnsRecord_recordOf (supabase : Connector) (q : Query) :
  Resolution.returnsRecord supabase q = isSome (recordOf supabase q).
Proof.
  unfold Resolution.returnsRecord, recordOf, firstRow.
  destruct (supabase q) as [|[[e|] [[|row rows]|]]]; reflexivity.
Qed.

Lemma stops_written_out (supabase : Connector) (q : Query) :
  stops supabase q =
  Resolution.returnsRecord supabase q || Resolution.throws supabase q.
Proof.
  unfold stops. rewrite returnsRecord_recordOf. apply orb_comm.
Qed.

Lemma firstRecord_gave (supabase : Connector)
  (l : list (Query * (Row -> DrugInteraction))) :
  isSome (firstRecord supabase l) =
  existsb (Resolution.returnsRecord supabase)
    (throughFirst (stops supabase) (map fst l)).
Proof.
  induction l as [|[q c] l IH]; [reflexivity|].
  cbn [firstRecord map fst throughFirst].
  pose proof (returnsRecord_recordOf supabase q) as R.
  assert (S : stops supabase q =
              match supabase q with
              | Rejected => true
              | Fulfilled r => isSome (firstRow r)
              end).
  { unfold stops, rejects, recordOf. now destruct (supabase q). }
  rewrite S. unfold recordOf in R.
  destruct (supabase q) as [|r]; [cbn; now rewrite R|].
  destruct (firstRow r); cbn [isSome existsb]; rewrite R; cbn;
    [reflexivity | exact IH].
Qed.

Lemma sentOver_written_out (supabase : Connector) (a b : string)
  (tables : list string) :
  sentOver supabase a b tables = Resolution.sent supabase a b tables.
Proof.
  induction tables as [|t rest IH]; [reflexivity|].
  cbn [sentOver Resolution.sent].
  unfold Resolution.gaveRecord, Resolution.sentTo.
  rewrite IH, firstRecord_gave.
  change (map fst (attempts a b t)) with (Resolution.subQueries a b t).
  change (subQueries a b t) with (Resolution.subQueries a b t).
  now rewrite (throughFirst_ext_in (stops supabase)
                 (fun q => Resolution.returnsRecord supabase q ||
                           Resolution.throws supabase q))
    by (intros; apply stops_written_out).
Qed.

Lemma messages_written_out (supabase : Connector) (l : list Query) :
  messages (map (errorOf supabase) l) =
  Resolution.somes (map (Resolution.errorMessage supabase) l).
Proof.
  induction l as [|q l IH]; [reflexivity|]. cbn.
  unfold errorOf at 1, Resolution.errorMessage at 1.
  destruct (supabase q) as [|[[e|] d]]; cbn; now rewrite IH.
Qed.

Lemma error_exists_messages (supabase : Connector) (l : list Query) :
  existsb (fun q => isSome (errorOf supabase q)) l =
  match messages (map (errorOf supabase) l) with
  | [] => false
  | _ :: _ => true
  end.
Proof.
  induction l as [|q l IH]; [reflexivity|]. cbn.
  destruct (errorOf supabase q); cbn; [reflexivity | exact IH].
Qed.

Lemma tableErrorLines_written_out (supabase : Connector) (a b t : string) :
  tableErrorLines supabase a b t = Resolution.loggedFor supabase a b t.
Proof.
  unfold tableErrorLines, Resolution.loggedFor, errorLine.
  change (subQueries a b t) with (Resolution.subQueries a b t).
  rewrite (existsb_ext_in (stops supabase)
             (fun q => Resolution.returnsRecord supabase q ||
                       Resolution.throws supabase q))
    by (intros; apply stops_written_out).
  destruct (existsb _ _); [reflexivity|].
  rewrite error_exists_messages, messages_written_out.
  now destruct (Resolution.somes _).
Qed.

Lemma linesOver_written_out (supabase : Connector) (a b : string)
  (tables : list string) :
  linesOver supabase a b tables = Resolution.logged supabase a b tables.
Proof.
  induction tables as [|t rest IH]; [reflexivity|].
  cbn [linesOver Resolution.logged].
  unfold Resolution.gaveRecord, Resolution.sentTo.
  rewrite IH, firstRecord_gave, tableErrorLines_written_out.
  change (map fst (attempts a b t)) with (Resolution.subQueries a b t).
  now rewrite (throughFirst_ext_in (stops supabase)
                 (fun q => Resolution.returnsRecord supabase q ||
                           Resolution.throws supabase q))
    by (intros; apply stops_written_out).
Qed.

(** The queries and the log lines of the route, on two non-empty names,
    are those of the resolution stated on its own. *)
Lemma POST_resolution (env : Env) (supabase : Connector) (s1 s2 : string) :
  s1 <> "" -> s2 <> "" ->
  let a := normalizeDrugName s1 in
  let b := normalizeDrugName s2 in
  let run := POST env supabase (Fields (JStr s1) (JStr s2)) in
  queries (snd run) = Resolution.sent supabase a b (Resolution.sources env) /\
  errorLines (snd run) = Resolution.logged supabase a b (Resolution.sources env).
Proof.
  intros H1 H2 a b run.
  destruct (POST_spec env supabase s1 s2 H1 H2) as (_ & Q & L).
  fold a b run in Q, L.
  now rewrite Q, L, sentOver_written_out, linesOver_written_out,
    tableCandidates_sources.
Qed.

(** C5, as the code has it: the sources are tried in the order [override
    or "drug_interactions", "DrugInteraction", "druginteraction"]; in each
    source the sub-queries are Shape A and Shape B on the names as given,
    then Shape A and Shape B on the names swapped, each with limit 1; the
    resolution stops at the first sub-query that returns a record, and a
    sub-query whose call throws ends the attempts on its source: the
    sub-queries after it are skipped and the next source is tried.  This
    holds for every behaviour of the store. *)
Theorem sub_queries_in_order (env : Env) (supabase : Connector) (s1 s2 : string) :
  s1 <> "" -> s2 <> "" ->
  queries (snd (POST env supabase (Fields (JStr s1) (JStr s2)))) =
    Resolution.sent supabase (normalizeDrugName s1) (normalizeDrugName s2)
      (Resolution.sources env).
Proof.
  intros H1 H2. now destruct (POST_resolution env supabase s1 s2 H1 H2).
Qed.

Lemma sub_queries_in_order_witness :
  queries (snd (POST None (Store.run warfarinAspirin)
                  (Fields (JStr "Aspirin") (JStr " Warfarin ")))) =
    Resolution.sent (Store.run warfarinAspirin) "aspirin" "warfarin"
      (Resolution.sources None).
Proof.
  apply (sub_queries_in_order None (Store.run warfarinAspirin)
           "Aspirin" " Warfarin "); discriminate.
Defined.

(** C5, as stated, fails: when the paired-name queries throw and no query
    returns a record, only the first two sub-queries of each source are
    attempted; the two on the swapped names never are. *)
Lemma swapped_sub_queries_skipped :
  queries (snd (POST None throwingShapeB
                  (Fields (JStr "aspirin") (JStr "ibuprofen")))) =
    [ Resolution.shapeA "drug_interactions" "aspirin" "ibuprofen";
      Resolution.shapeB "drug_interactions" "aspirin" "ibuprofen";
      Resolution.shapeA "DrugInteraction" "aspirin" "ibuprofen";
      Resolution.shapeB "DrugInteraction" "aspirin" "ibuprofen";
      Resolution.shapeA "druginteraction" "aspirin" "ibuprofen";
      Resolution.shapeB "druginteraction" "aspirin" "ibuprofen" ] /\
  (forall q, Resolution.returnsRecord throwingShapeB q = false).
Proof.
  split; [reflexivity|]. intros q.
  unfold Resolution.returnsRecord, throwingShapeB.
  now destruct (select q =? _).
Qed.

(** With the pair stored in the swapped order, the third sub-query of the
    first source is the last one sent. *)
Example resolution_order_swapped_hit :
  queries (snd (POST None (Store.run warfarinAspirin)
                  (Fields (JStr "Aspirin") (JStr " Warfarin ")))) =
  [ variantA "drug_interactions" "%aspirin%" "%warfarin%";
    variantB "drug_interactions" "%aspirin%" "%warfarin%";
    variantA "drug_interactions" "%warfarin%" "%aspirin%" ].
Proof. reflexivity. Qed.

(** ** Transport errors *)

(** With the client built the whole route is the route on that client;
    with a client that cannot be built it answers 500 at once. *)
Lemma Route_built (createClient : Route.CreateClient)
  (processEnv : SupabaseServer.ProcessEnv) (env : Env) (supabase : Connector)
  (request : RequestJson) :
  Route.Built createClient processEnv supabase ->
  snd (Route.POST createClient processEnv env request) = POST env supabase request.
Proof.
  unfold Route.Built, Route.POST.
  destruct (SupabaseServer.getSupabaseServerClient processEnv) as [args w].
  cbn [fst snd]. now intros ->.
Qed.

Lemma Route_not_built (createClient : Route.CreateClient)
  (processEnv : SupabaseServer.ProcessEnv) (env : Env) (request : RequestJson) :
  createClient (fst (SupabaseServer.getSupabaseServerClient processEnv)) = None ->
  snd (Route.POST createClient processEnv env request) = internalError.
Proof.
  unfold Route.POST.
  destruct (SupabaseServer.getSupabaseServerClient processEnv) as [args w].
  cbn [fst snd]. now intros ->.
Qed.

Lemma fails_written_out (supabase : Connector) (q : Query) :
  Resolution.throws supabase q = true \/
  Resolution.errorMessage supabase q <> None ->
  Resolution.returnsRecord supabase q = false.
Proof.
  unfold Resolution.throws, Resolution.errorMessage, Resolution.returnsRecord.
  destruct (supabase q) as [|[[e|] d]]; [reflexivity | reflexivity |].
  intros [H | H]; [discriminate | now contradiction H].
Qed.

(** C8, as the code has it: with the client built and two non-empty names,
    no failure of a sub-query reaches the caller: the answer is always 200
    with an interaction.  For every behaviour of the store, an error object
    does not end the attempts on its source, a call that throws does (the
    sub-queries after it are skipped), and in both cases the next source
    is tried; one line is logged for a source exactly when none of its
    four sub-queries returns a record or throws and some answer carries an
    error object.  When every sub-query fails the answer is the fallback. *)
Theorem transport_errors_contained (createClient : Route.CreateClient)
  (processEnv : SupabaseServer.ProcessEnv) (env : Env) (supabase : Connector)
  (s1 s2 : string) :
  Route.Built createClient processEnv supabase ->
  s1 <> "" -> s2 <> "" ->
  let a := normalizeDrugName s1 in
  let b := normalizeDrugName s2 in
  let run := snd (Route.POST createClient processEnv env
                    (Fields (JStr s1) (JStr s2))) in
  (exists d, fst run = {| status := 200; body := InteractionBody d |}) /\
  queries (snd run) = Resolution.sent supabase a b (Resolution.sources env) /\
  errorLines (snd run) = Resolution.logged supabase a b (Resolution.sources env) /\
  ((forall source q,
      In source (Resolution.sources env) ->
      In q (Resolution.subQueries a b source) ->
      Resolution.throws supabase q = true \/
      Resolution.errorMessage supabase q <> None) ->
   fst run = fallbackResponse s1 s2).
Proof.
  intros B H1 H2 a b run. unfold run.
  rewrite (Route_built _ _ env _ _ B).
  destruct (POST_spec env supabase s1 s2 H1 H2) as (R & _).
  destruct (POST_resolution env supabase s1 s2 H1 H2) as (Q & L).
  fold a b in R, Q, L. repeat split; [| exact Q | exact L |].
  - rewrite R. destruct (resultOver supabase a b (tableCandidates env));
      cbn; eexists; reflexivity.
  - intros F. rewrite R, resultOver_none; [reflexivity|].
    intros q Hq. apply in_flat_map in Hq. destruct Hq as (t & It & Iq).
    rewrite tableCandidates_sources in It.
    specialize (F t q It Iq). apply fails_written_out in F.
    rewrite returnsRecord_recordOf in F.
    now destruct (recordOf supabase q).
Qed.

Lemma transport_errors_contained_witness :
  let run := snd (Route.POST (Route.reference metforminLisinopril)
                    Route.configured None
                    (Fields (JStr "Metformin") (JStr "Lisinopril"))) in
  (exists d, fst run = {| status := 200; body := InteractionBody d |}) /\
  queries (snd run) =
    [ Resolution.shapeA "drug_interactions" "metformin" "lisinopril";
      Resolution.shapeB "drug_interactions" "metformin" "lisinopril";
      Resolution.shapeA "drug_interactions" "lisinopril" "metformin";
      Resolution.shapeB "drug_interactions" "lisinopril" "metformin";
      Resolution.shapeA "DrugInteraction" "metformin" "lisinopril";
      Resolution.shapeB "DrugInteraction" "metformin" "lisinopril" ] /\
  errorLines (snd run) =
    [["Supabase read errors for table drug_interactions:";
      "relation does not exist | relation does not exist | relation does not exist | relation does not exist"]].
Proof.
  pose proof (transport_errors_contained (Route.reference metforminLisinopril)
                Route.configured None (Store.run metforminLisinopril)
                "Metformin" "Lisinopril") as T.
  cbv zeta in T.
  destruct T as (T1 & T2 & T3 & _); [reflexivity | discriminate | discriminate |].
  cbv zeta. split; [exact T1|]. split.
  - rewrite T2. reflexivity.
  - rewrite T3. reflexivity.
Defined.

(** C8, as stated, fails: a call that throws is not logged and ends the
    work on its source, and an error object is not logged either when a
    later sub-query of the same source returns a record. *)
Lemma errors_not_always_logged :
  let thrown :=
    POST None (fun _ => Rejected) (Fields (JStr "aspirin") (JStr "ibuprofen")) in
  let masked :=
    POST None (Store.run [("drug_interactions",
                           {| Store.columns := Store.ddinterColumns;
                              Store.rows := [[("primary_drug_name", "metformin");
                                              ("secondary_drug_name", "lisinopril");
                                              ("interaction_severity", "minor")]] |})])
      (Fields (JStr "Metformin") (JStr "Lisinopril")) in
  (errorLines (snd thrown) = [] /\
   queries (snd thrown) =
     [ variantA "drug_interactions" "%aspirin%" "%ibuprofen%";
       variantA "DrugInteraction" "%aspirin%" "%ibuprofen%";
       variantA "druginteraction" "%aspirin%" "%ibuprofen%" ]) /\
  (snd masked =
     [ Sent (variantA "drug_interactions" "%metformin%" "%lisinopril%");
       Sent (variantB "drug_interactions" "%metformin%" "%lisinopril%") ] /\
   errorOf (Store.run [("drug_interactions",
                        {| Store.columns := Store.ddinterColumns;
                           Store.rows := [[("primary_drug_name", "metformin");
                                           ("secondary_drug_name", "lisinopril");
                                           ("interaction_severity", "minor")]] |})])
     (variantA "drug_interactions" "%metformin%" "%lisinopril%")
   = Some {| message := "column does not exist" |}).
Proof. cbv zeta. repeat split. Qed.

(** ** Records of Variant B *)

(** What is built from a Variant B record has its severity in the closed
    set. *)
Lemma ofDDInterRow_severity_closed (row : Row) :
  exists sev, severity (ofDDInterRow row) = Some sev /\ In sev severityTexts.
Proof.
  eexists. split; [reflexivity|].
  unfold severityTexts. apply in_map, normalizeSeverity_closed.
Qed.

Lemma tryCatch_found {A} (m : Async (option A)) (x : A) :
  fst (tryCatch m (ret None)) = Normal (Some x) -> fst m = Normal (Some x).
Proof.
  destruct m as [[o|] ev]; cbn; [auto | discriminate].
Qed.

(** C9: when the first record of a source comes from a Variant B sub-query
    (the one on the names as given, or the one on the names swapped, the
    sub-queries before it neither returning a record nor throwing), the
    result built has drug1 and drug2 from primary_drug_name and
    secondary_drug_name, severity normalizeSeverity(interaction_severity),
    and neither description nor interaction. *)
Theorem variantB_result (supabase : Connector) (n1 n2 t : string) (row : Row) :
  let like1 := "%" ++ n1 ++ "%" in
  let like2 := "%" ++ n2 ++ "%" in
  (stops supabase (variantA t like1 like2) = false /\
   recordOf supabase (variantB t like1 like2) = Some row) \/
  (stops supabase (variantA t like1 like2) = false /\
   stops supabase (variantB t like1 like2) = false /\
   stops supabase (variantA t like2 like1) = false /\
   recordOf supabase (variantB t like2 like1) = Some row) ->
  fst (findInteractionInTable supabase n1 n2 t) =
    Normal (Some {| drug1 := field "primary_drug_name" row;
                    drug2 := field "secondary_drug_name" row;
                    severity :=
                      Some (Severity.text
                              (normalizeSeverity (field "interaction_severity" row)));
                    description := None;
                    interaction := None |}).
Proof.
  intros like1 like2 H. apply tryCatch_found.
  destruct (findInteractionInTable_spec supabase n1 n2 t) as (R & _).
  rewrite R. clear R. unfold attempts, likeOf. fold like1 like2.
  unfold stops, rejects, recordOf in H. cbn [firstRecord].
  destruct H as [(A1 & B1) | (A1 & B1 & A2 & B2)].
  - destruct (supabase (variantA t like1 like2)) as [|r1]; [discriminate|].
    destruct (firstRow r1); [discriminate|].
    destruct (supabase (variantB t like1 like2)) as [|r2]; [discriminate|].
    now rewrite B1.
  - destruct (supabase (variantA t like1 like2)) as [|r1]; [discriminate|].
    destruct (firstRow r1); [discriminate|].
    destruct (supabase (variantB t like1 like2)) as [|r2]; [discriminate|].
    destruct (firstRow r2); [discriminate|].
    destruct (supabase (variantA t like2 like1)) as [|r3]; [discriminate|].
    destruct (firstRow r3); [discriminate|].
    destruct (supabase (variantB t like2 like1)) as [|r4]; [discriminate|].
    now rewrite B2.
Qed.

Lemma variantB_result_witness :
  fst (findInteractionInTable (Store.run metforminLisinopril)
         "metformin" "lisinopril" "DrugInteraction") =
    Normal (Some {| drug1 := Some "metformin";
                    drug2 := Some "lisinopril";
                    severity := Some "Minor";
                    description := None;
                    interaction := None |}).
Proof.
  apply (variantB_result (Store.run metforminLisinopril)
           "metformin" "lisinopril" "DrugInteraction"
           [("primary_drug_name", "metformin");
            ("secondary_drug_name", "lisinopril");
            ("interaction_severity",
             "no significant interaction - minor monitoring advised")]).
  left. split; reflexivity.
Defined.

(** The scenario of the specification, through the route. *)
Example variantB_scenario :
  fst (POST None (Store.run metforminLisinopril)
         (Fields (JStr "Metformin") (JStr "Lisinopril"))) =
  {| status := 200;
     body := InteractionBody
       {| drug1 := Some "Metformin";
          drug2 := Some "Lisinopril";
          severity := Some "Minor";
          description := None;
          interaction := None |} |}.
Proof. reflexivity. Qed.

(** ** Names made of white space *)

Lemma throughFirst_incl {A} (p : A -> bool) (l : list A) :
  incl (throughFirst p l) l.
Proof.
  induction l as [|x l IH]; cbn; [apply incl_refl|].
  destruct (p x).
  - intros y [<- | []]. now left.
  - intros y [<- | Hy]; [now left | right; now apply IH].
Qed.

(** Every query sent is one of the plan. *)
Lemma sentOver_incl (supabase : Connector) (a b : string) (tables : list string) :
  incl (sentOver supabase a b tables) (flat_map (subQueries a b) tables).
Proof.
  induction tables as [|t rest IH]; [apply incl_refl|].
  cbn [sentOver flat_map]. apply incl_app.
  - apply incl_appl, throughFirst_incl.
  - destruct (isSome _); [intros y [] | now apply incl_appr].
Qed.

Lemma like_any (v : string) : Store.like "%%" v = true.
Proof.
  induction v as [|c v IH]; [reflexivity|].
  cbn in *. rewrite IH. now rewrite !orb_true_r.
Qed.

(** C10: two names that are not empty but made of white space only pass
    the validation: the answer is not 400, the store is asked, first with
    Variant A on the first source, and every query sent carries the two
    patterns "%%", a pattern that every field value matches. *)
Theorem blank_names_reach_store (env : Env) (supabase : Connector)
  (s1 s2 : string) :
  s1 <> "" -> s2 <> "" ->
  allWhiteSpace s1 = true -> allWhiteSpace s2 = true ->
  let run := POST env supabase (Fields (JStr s1) (JStr s2)) in
  status (fst run) = 200 /\
  (exists rest,
     queries (snd run) =
       variantA (orElse env "drug_interactions") "%%" "%%" :: rest) /\
  Forall (fun q => map snd (ilike q) = ["%%"; "%%"]) (queries (snd run)) /\
  (forall value, Store.ilikeMatch value "%%" = true).
Proof.
  intros H1 H2 W1 W2 run.
  destruct (POST_spec env supabase s1 s2 H1 H2) as (R & Q & _).
  fold run in R, Q.
  rewrite (normalizeDrugName_blank s1 W1), (normalizeDrugName_blank s2 W2) in R, Q.
  repeat split.
  - rewrite R. now destruct (resultOver _ _ _ _).
  - rewrite Q. cbn [tableCandidates sentOver subQueries throughFirst].
    destruct (stops supabase _); eexists; reflexivity.
  - rewrite Q. apply Forall_forall. intros q Hq.
    apply sentOver_incl in Hq. cbn in Hq.
    repeat (destruct Hq as [<- | Hq]; [reflexivity|]). contradiction.
  - intros value. apply like_any.
Qed.

Lemma blank_names_reach_store_witness :
  let run := POST None (Store.run metforminLisinopril)
               (Fields (JStr " ") (JStr "  ")) in
  status (fst run) = 200 /\
  (exists rest,
     queries (snd run) = variantA "drug_interactions" "%%" "%%" :: rest) /\
  Forall (fun q => map snd (ilike q) = ["%%"; "%%"]) (queries (snd run)) /\
  (forall value, Store.ilikeMatch value "%%" = true).
Proof.
  apply (blank_names_reach_store None (Store.run metforminLisinopril) " " "  ");
    (discriminate || reflexivity).
Defined.

(** For blank names the first stored record is what the route answers. *)
Example blank_names_match_any_record :
  fst (POST None (Store.run metforminLisinopril)
         (Fields (JStr " ") (JStr "  "))) =
  {| status := 200;
     body := InteractionBody
       {| drug1 := Some "";
          drug2 := Some "";
          severity := Some "Minor";
          description := None;
          interaction := None |} |}.
Proof. reflexivity. Qed.

(** ** Records of Variant A *)

(** A record of the first Variant A sub-query is returned as it is: the
    response carries the row's severity text unchanged. *)
Lemma variantA_result_raw (env : Env) (supabase : Connector) (s1 s2 : string)
  (row : Row) :
  s1 <> "" -> s2 <> "" ->
  recordOf supabase
    (variantA (orElse env "drug_interactions")
       (likeOf (normalizeDrugName s1)) (likeOf (normalizeDrugName s2))) = Some row ->
  severityOf (fst (POST env supabase (Fields (JStr s1) (JStr s2)))) =
    field "severity" row.
Proof.
  intros H1 H2 H. destruct (POST_spec env supabase s1 s2 H1 H2) as (R & _).
  rewrite R. cbn [tableCandidates resultOver attempts firstRecord].
  unfold recordOf in H.
  destruct (supabase _) as [|r]; [discriminate|]. now rewrite H.
Qed.

Lemma firstRecord_source (supabase : Connector)
  (l : list (Query * (Row -> DrugInteraction))) (i : DrugInteraction) :
  firstRecord supabase l = Some i ->
  exists q convert row,
    In (q, convert) l /\ recordOf supabase q = Some row /\ i = convert row.
Proof.
  induction l as [|[q c] l IH]; [discriminate|]. cbn [firstRecord].
  destruct (supabase q) as [|r] eqn:E; [discriminate|].
  destruct (firstRow r) as [row|] eqn:F.
  - intros [= <-]. exists q, c, row. unfold recordOf. rewrite E.
    repeat split; [now left | exact F].
  - intros H. destruct (IH H) as (q' & c' & row & I & R & ->).
    exists q', c', row. repeat split; [now right | exact R].
Qed.

Lemma resultOver_source (supabase : Connector) (a b : string)
  (tables : list string) (i : DrugInteraction) :
  resultOver supabase a b tables = Some i ->
  exists t q convert row,
    In t tables /\ In (q, convert) (attempts a b t) /\
    recordOf supabase q = Some row /\ i = convert row.
Proof.
  induction tables as [|t rest IH]; [discriminate|]. cbn [resultOver].
  destruct (firstRecord supabase (attempts a b t)) as [j|] eqn:E.
  - intros [= <-]. destruct (firstRecord_source _ _ _ E) as (q & c & row & I & R & ->).
    exists t, q, c, row. repeat split; [now left | exact I | exact R].
  - intros H. destruct (IH H) as (t' & q & c & row & It & I & R & ->).
    exists t', q, c, row. repeat split; [now right | exact I | exact R].
Qed.

(** The severity of a successful response is in the closed set, unless the
    record came from a Variant A sub-query: then it is the row's own text. *)
Lemma response_severity_cases (env : Env) (supabase : Connector) (s1 s2 : string) :
  s1 <> "" -> s2 <> "" ->
  let a := normalizeDrugName s1 in
  let b := normalizeDrugName s2 in
  let run := POST env supabase (Fields (JStr s1) (JStr s2)) in
  (exists sev, severityOf (fst run) = Some sev /\ In sev severityTexts) \/
  (exists t like1 like2 row,
     In (variantA t like1 like2) (plan env a b) /\
     recordOf supabase (variantA t like1 like2) = Some row /\
     severityOf (fst run) = field "severity" row).
Proof.
  intros H1 H2 a b run.
  destruct (POST_spec env supabase s1 s2 H1 H2) as (R & _).
  fold a b run in R. rewrite R.
  destruct (resultOver supabase a b (tableCandidates env)) as [i|] eqn:E.
  - destruct (resultOver_source _ _ _ _ _ E) as (t & q & c & row & It & I & Rq & ->).
    assert (P : In q (plan env a b)).
    { unfold plan. apply in_flat_map. exists t. split; [exact It|].
      change (subQueries a b t) with (map fst (attempts a b t)).
      now apply (in_map fst) in I. }
    cbn in I.
    destruct I as [I | [I | [I | [I | []]]]]; injection I as <- <-.
    + right. eexists _, _, _, row. repeat split; [exact P | exact Rq].
    + left. apply ofDDInterRow_severity_closed.
    + right. eexists _, _, _, row. repeat split; [exact P | exact Rq].
    + left. apply ofDDInterRow_severity_closed.
  - left. exists "None". split; [reflexivity|]. cbv. auto.
Qed.

(** C1 fails on the code: a Variant A record is cast to the result type and
    its severity is not passed through normalizeSeverity.  With the stored
    text "Major bleeding risk", the response carries that text, which is
    none of Major, Moderate, Minor, None. *)
Theorem legacy_severity_returned_raw :
  severityOf (fst (POST None (Store.run warfarinAspirin)
                     (Fields (JStr "warfarin") (JStr "aspirin")))) =
    Some "Major bleeding risk" /\
  ~ In "Major bleeding risk" severityTexts /\
  normalizeSeverity (Some "Major bleeding risk") = Severity.Major.
Proof.
  repeat split. cbv. intuition discriminate.
Qed.

(** ** Validation *)

(** C2 fails on the code: the guard tests the fields before any trimming.
    With drug1 a single space, which is empty after trimming, the route
    does not answer 400; it asks the store with the pattern "%%" for the
    first name and answers from the record found. *)
Theorem blank_name_passes_validation :
  let run := POST None (Store.run warfarinAspirin)
               (Fields (JStr " ") (JStr "aspirin")) in
  trim " " = "" /\
  status (fst run) = 200 /\
  queries (snd run) = [variantA "drug_interactions" "%%" "%aspirin%"] /\
  severityOf (fst run) = Some "Major bleeding risk".
Proof. cbv zeta. repeat split. Qed.

(** ** Symmetry *)

Lemma firstn_map_filter_head {A B} (f : A -> B) (p : A -> bool) (l : list A)
  (n : nat) :
  n <> 0 ->
  (exists x, In x l /\ p x = true) <->
  (exists y, hd_error (firstn n (map f (filter p l))) = Some y).
Proof.
  intros Hn. destruct n as [|n]; [contradiction|]. split.
  - intros (x & Hx & Px).
    assert (F : In x (filter p l)) by (apply filter_In; auto).
    destruct (filter p l) as [|z l']; [contradiction|]. cbn. eauto.
  - intros (y & Hy). destruct (filter p l) as [|z l'] eqn:E; [discriminate|].
    exists z. apply filter_In. rewrite E. now left.
Qed.

Lemma firstRow_hd (l : list Row) :
  firstRow {| error := None; data := Some l |} = hd_error l.
Proof. now destruct l. Qed.

(** The store holds a record for a query exactly when running the query
    returns one. *)
Lemma Holds_recordOf (db : Store.t) (q : Query) :
  limit q <> 0 ->
  (Store.Holds db q <-> recordOf (Store.run db) q <> None).
Proof.
  intros Hn. unfold Store.Holds, recordOf, Store.run, resolving, Store.answer.
  destruct (Store.table (from q) db) as [tbl|].
  - destruct (forallb _ _) eqn:C.
    + rewrite firstRow_hd.
      pose proof (firstn_map_filter_head
                    (Store.project (Store.splitCommas (select q)))
                    (Store.passes (ilike q)) (Store.rows tbl) (limit q) Hn) as F.
      split.
      * intros (tbl' & row & E & _ & I & P). injection E as <-.
        destruct (proj1 F (ex_intro _ row (conj I P))) as [y ->]. discriminate.
      * intros H. destruct (hd_error _) as [y|] eqn:E; [|contradiction].
        destruct (proj2 F (ex_intro _ y eq_refl)) as (x & I & P).
        exists tbl, x. auto.
    + split; [| intros H; now contradiction H].
      intros (tbl' & row & E & C' & _). injection E as <-. congruence.
  - split; [| intros H; now contradiction H].
    intros (tbl' & row & E & _). discriminate.
Qed.

Section Resolving.

Variable answer : Query -> PostgrestResponse.

(** With calls that resolve, the lookup in a source is the lookup for the
    names as given, then the lookup for the names swapped. *)
Lemma firstRecord_attempts (a b t : string) :
  firstRecord (resolving answer) (attempts a b t) =
  match ordered (resolving answer) a b t with
  | Some i => Some i
  | None => ordered (resolving answer) b a t
  end.
Proof.
  unfold ordered, attempts, resolving. cbn [firstRecord].
  destruct (firstRow (answer (variantA t (likeOf a) (likeOf b)))); [reflexivity|].
  destruct (firstRow (answer (variantB t (likeOf a) (likeOf b)))); reflexivity.
Qed.

Lemma firstRecord_attempts_swap (a b t : string) :
  isSome (firstRecord (resolving answer) (attempts a b t)) =
  isSome (firstRecord (resolving answer) (attempts b a t)).
Proof.
  rewrite !firstRecord_attempts.
  destruct (ordered (resolving answer) a b t), (ordered (resolving answer) b a t); reflexivity.
Qed.

Lemma resultOver_swap (a b : string) (tables : list string) :
  isSome (resultOver (resolving answer) a b tables) = isSome (resultOver (resolving answer) b a tables).
Proof.
  induction tables as [|t rest IH]; [reflexivity|]. cbn [resultOver].
  pose proof (firstRecord_attempts_swap a b t) as S.
  destruct (firstRecord (resolving answer) (attempts a b t)),
           (firstRecord (resolving answer) (attempts b a t)); try discriminate; auto.
Qed.

Lemma resultOver_one_order (a b : string) (tables : list string) :
  (forall t, In t tables -> ordered (resolving answer) b a t = None) ->
  resultOver (resolving answer) a b tables = resultOver (resolving answer) b a tables.
Proof.
  induction tables as [|t rest IH]; intros H; [reflexivity|]. cbn [resultOver].
  rewrite !firstRecord_attempts, (H t (or_introl eq_refl)).
  destruct (ordered (resolving answer) a b t); [reflexivity|].
  apply IH. intros t' Ht'. apply H. now right.
Qed.

Lemma resultOver_found (a b t : string) (tables : list string) :
  In t tables -> ordered (resolving answer) a b t <> None ->
  resultOver (resolving answer) a b tables <> None.
Proof.
  induction tables as [|t' rest IH]; intros I H; [contradiction|].
  cbn [resultOver]. rewrite firstRecord_attempts.
  destruct I as [-> | I].
  - destruct (ordered (resolving answer) a b t); [discriminate | contradiction].
  - destruct (ordered (resolving answer) a b t'); [discriminate|].
    destruct (ordered (resolving answer) b a t') eqn:E; [discriminate|]. auto.
Qed.

Lemma ordered_none (a b t : string) :
  ordered (resolving answer) a b t = None <->
  recordOf (resolving answer) (variantA t (likeOf a) (likeOf b)) = None /\
  recordOf (resolving answer) (variantB t (likeOf a) (likeOf b)) = None.
Proof.
  unfold ordered, recordOf, resolving. cbn [firstRecord].
  destruct (firstRow (answer (variantA t (likeOf a) (likeOf b))));
    [split; [discriminate | intros [? _]; discriminate]|].
  destruct (firstRow (answer (variantB t (likeOf a) (likeOf b))));
    [split; [discriminate | intros [_ ?]; discriminate]|].
  split; auto.
Qed.

End Resolving.

Lemma HoldsPair_ordered (db : Store.t) (a b t : string) :
  HoldsPair db a b t <-> ordered (Store.run db) a b t <> None.
Proof.
  unfold HoldsPair, Store.run.
  rewrite !Holds_recordOf by discriminate. unfold Store.run.
  pose proof (ordered_none (Store.answer db) a b t) as O.
  destruct (ordered (resolving (Store.answer db)) a b t).
  - split; [discriminate|]. intros _.
    destruct (recordOf _ (variantA t _ _)); [left; discriminate|].
    destruct (recordOf _ (variantB t _ _)); [right; discriminate|].
    discriminate (proj2 O (conj eq_refl eq_refl)).
  - destruct (proj1 O eq_refl) as [-> ->]. tauto.
Qed.

(** C6, as the code has it: when a candidate source holds a record
    matching the pair (X, Y) in either shape, the lookups for (X, Y) and
    for (Y, X) both find a record, and the route answers from it; the two
    severities are the same when no candidate source holds a record
    matching the pair in the opposite order (Y, X). *)
Theorem symmetric_lookup (env : Env) (db : Store.t) (X Y : string) :
  X <> "" -> Y <> "" ->
  let x := normalizeDrugName X in
  let y := normalizeDrugName Y in
  let asked := POST env (Store.run db) (Fields (JStr X) (JStr Y)) in
  let swapped := POST env (Store.run db) (Fields (JStr Y) (JStr X)) in
  (exists t, In t (tableCandidates env) /\ HoldsPair db x y t) ->
  (exists i j,
     fst (forTableCandidates (Store.run db) x y (tableCandidates env))
       = Normal (Some i) /\
     fst (forTableCandidates (Store.run db) y x (tableCandidates env))
       = Normal (Some j) /\
     fst asked = matchedResponse X Y i /\
     fst swapped = matchedResponse Y X j) /\
  ((forall t, In t (tableCandidates env) -> ~ HoldsPair db y x t) ->
   severityOf (fst asked) = severityOf (fst swapped)).
Proof.
  intros HX HY x y asked swapped (t & It & Ht).
  destruct (POST_spec env (Store.run db) X Y HX HY) as (R1 & _).
  destruct (POST_spec env (Store.run db) Y X HY HX) as (R2 & _).
  fold x y asked in R1. fold x y swapped in R2.
  destruct (forTableCandidates_spec (Store.run db) x y (tableCandidates env))
    as (F1 & _).
  destruct (forTableCandidates_spec (Store.run db) y x (tableCandidates env))
    as (F2 & _).
  cbv zeta in F1, F2. rewrite F1, F2, R1, R2.
  apply HoldsPair_ordered in Ht. unfold Store.run in *.
  set (supabase := resolving (Store.answer db)) in *.
  pose proof (resultOver_found (Store.answer db) x y t (tableCandidates env) It Ht)
    as N1.
  pose proof (resultOver_swap (Store.answer db) x y (tableCandidates env)) as S.
  fold supabase in N1, S.
  split.
  - destruct (resultOver supabase x y (tableCandidates env)) as [i|];
      [|contradiction].
    destruct (resultOver supabase y x (tableCandidates env)) as [j|];
      [|discriminate].
    exists i, j. auto.
  - intros H.
    assert (E : resultOver supabase x y (tableCandidates env) =
                resultOver supabase y x (tableCandidates env)).
    { apply (resultOver_one_order (Store.answer db)).
      intros t' It'. specialize (H t' It').
      rewrite HoldsPair_ordered in H. unfold Store.run in H. fold supabase in H.
      fold supabase.
      destruct (ordered supabase y x t'); [|reflexivity].
      exfalso. apply H. discriminate. }
    rewrite E.
    destruct (resultOver supabase y x (tableCandidates env)); reflexivity.
Qed.

Lemma symmetric_lookup_witness :
  let db := warfarinAspirin in
  let asked := POST None (Store.run db) (Fields (JStr "Warfarin") (JStr "Aspirin")) in
  let swapped := POST None (Store.run db) (Fields (JStr "Aspirin") (JStr "Warfarin")) in
  (exists i j,
     fst (forTableCandidates (Store.run db) "warfarin" "aspirin" (tableCandidates None))
       = Normal (Some i) /\
     fst (forTableCandidates (Store.run db) "aspirin" "warfarin" (tableCandidates None))
       = Normal (Some j) /\
     fst asked = matchedResponse "Warfarin" "Aspirin" i /\
     fst swapped = matchedResponse "Aspirin" "Warfarin" j) /\
  severityOf (fst asked) = severityOf (fst swapped).
Proof.
  pose proof (symmetric_lookup None warfarinAspirin "Warfarin" "Aspirin") as T.
  cbv zeta in T.
  destruct T as [T1 T2]; [discriminate | discriminate | |].
  - exists "drug_interactions". split; [now left|].
    apply HoldsPair_ordered. discriminate.
  - cbv zeta. split; [exact T1|]. apply T2.
    intros t It. rewrite HoldsPair_ordered.
    intros H. apply H. cbn in It.
    repeat (destruct It as [<- | It]; [reflexivity|]). contradiction.
Defined.

(** C6, as stated, fails: a store that lists the pair in both orders with
    two severities answers Major for (warfarin, aspirin) and Minor for
    (aspirin, warfarin). *)
Lemma symmetry_fails_on_both_orders :
  HoldsPair bothOrders "warfarin" "aspirin" "drug_interactions" /\
  severityOf (fst (POST None (Store.run bothOrders)
                     (Fields (JStr "warfarin") (JStr "aspirin")))) = Some "Major" /\
  severityOf (fst (POST None (Store.run bothOrders)
                     (Fields (JStr "aspirin") (JStr "warfarin")))) = Some "Minor".
Proof.
  split; [| split; reflexivity].
  apply HoldsPair_ordered. discriminate.
Qed.

(** ** The store's filter on the handler's patterns *)

Lemma like_percent (v : string) : Store.like "%" v = true.
Proof.
  induction v as [|c v IH]; [reflexivity|]. cbn in *. exact IH.
Qed.

Lemma like_plain_prefix (x v : string) :
  Store.plain x = true -> Store.like (x ++ "%") v = startsWith v x.
Proof.
  revert v. induction x as [|c x IH]; intros v P.
  - rewrite like_percent. reflexivity.
  - cbn [Store.plain] in P. apply andb_true_iff in P. destruct P as [Pc Px].
    unfold Store.plainChar in Pc.
    apply andb_true_iff in Pc. destruct Pc as [Pc P3].
    apply andb_true_iff in Pc. destruct Pc as [P1 P2].
    apply negb_true_iff in P1, P2, P3.
    cbn [append Store.like startsWith]. rewrite P1, P2, P3.
    destruct v as [|a v]; [reflexivity|]. now rewrite IH.
Qed.

Lemma like_plain_contains (x v : string) :
  Store.plain x = true -> Store.like ("%" ++ x ++ "%") v = includes v x.
Proof.
  intros P. cbn [append Store.like Ascii.eqb Bool.eqb].
  induction v as [|c v IH].
  - cbn [includes]. rewrite (like_plain_prefix x "" P). now rewrite orb_false_r.
  - cbn [includes]. rewrite (like_plain_prefix x (String c v) P). now rewrite IH.
Qed.

Lemma toLowerCase_append (a b : string) :
  toLowerCase (a ++ b) = toLowerCase a ++ toLowerCase b.
Proof.
  induction a as [|c a IH]; cbn; [reflexivity | now rewrite IH].
Qed.

Lemma plainChar_lowerChar (c : ascii) :
  Store.plainChar c = true -> Store.plainChar (lowerChar c) = true.
Proof.
  destruct c as [[] [] [] [] [] [] [] []]; vm_compute; congruence.
Qed.

Lemma plain_toLowerCase (x : string) :
  Store.plain x = true -> Store.plain (toLowerCase x) = true.
Proof.
  induction x as [|c x IH]; cbn; [reflexivity|].
  rewrite !andb_true_iff. intros [Pc Px].
  split; [now apply plainChar_lowerChar | now apply IH].
Qed.

(** On the pattern built from a name without [%], [_] or backslash, the
    store's filter is the case-insensitive "contains" test. *)
Lemma ilikeMatch_contains (x value : string) :
  Store.plain x = true ->
  Store.ilikeMatch value (likeOf x) =
  includes (toLowerCase value) (toLowerCase x).
Proof.
  intros P. unfold Store.ilikeMatch, likeOf.
  rewrite !toLowerCase_append.
  change (toLowerCase "%") with "%".
  apply like_plain_contains. now apply plain_toLowerCase.
Qed.

(** * Further properties *)

(** ** Name normalization *)

Lemma lowerChar_idempotent (c : ascii) : lowerChar (lowerChar c) = lowerChar c.
Proof. destruct c as [[] [] [] [] [] [] [] []]; reflexivity. Qed.

Lemma isWhiteSpace_lowerChar (c : ascii) :
  isWhiteSpace (lowerChar c) = isWhiteSpace c.
Proof. destruct c as [[] [] [] [] [] [] [] []]; reflexivity. Qed.

Lemma toLowerCase_idempotent (s : string) :
  toLowerCase (toLowerCase s) = toLowerCase s.
Proof.
  induction s as [|c r IH]; cbn; [reflexivity|].
  now rewrite lowerChar_idempotent, IH.
Qed.

Lemma trimStart_toLowerCase (s : string) :
  trimStart (toLowerCase s) = toLowerCase (trimStart s).
Proof.
  induction s as [|c r IH]; cbn; [reflexivity|].
  rewrite isWhiteSpace_lowerChar. now destruct (isWhiteSpace c).
Qed.

Lemma trimEnd_toLowerCase (s : string) :
  trimEnd (toLowerCase s) = toLowerCase (trimEnd s).
Proof.
  induction s as [|c r IH]; cbn; [reflexivity|].
  rewrite IH, isWhiteSpace_lowerChar.
  destruct (trimEnd r); cbn; [now destruct (isWhiteSpace c) | reflexivity].
Qed.

Lemma trim_toLowerCase (s : string) :
  trim (toLowerCase s) = toLowerCase (trim s).
Proof. unfold trim. now rewrite trimStart_toLowerCase, trimEnd_toLowerCase. Qed.

Lemma trimStart_fixed (s : string) : headSpace s = false -> trimStart s = s.
Proof. destruct s as [|c r]; cbn; [reflexivity | now intros ->]. Qed.

Lemma trimEnd_fixed (s : string) : lastSpace s = false -> trimEnd s = s.
Proof.
  induction s as [|c r IH]; [reflexivity|].
  destruct r as [|d r']; cbn in *; [now intros -> |].
  intros H. specialize (IH H). cbn in IH. now rewrite IH.
Qed.

Lemma trim_idempotent (s : string) : trim (trim s) = trim s.
Proof.
  destruct (trim_spec s) as (l & r & _ & _ & _ & Hh & Hl).
  unfold trim at 1. now rewrite (trimStart_fixed _ Hh), (trimEnd_fixed _ Hl).
Qed.

Lemma trimStart_allWhiteSpace (s : string) :
  allWhiteSpace s = true -> trimStart s = "".
Proof.
  induction s as [|c r IH]; cbn; [reflexivity|].
  rewrite andb_true_iff. intros [-> Hr]. auto.
Qed.

Lemma trimEnd_allWhiteSpace (s : string) :
  allWhiteSpace s = true -> trimEnd s = "".
Proof.
  induction s as [|c r IH]; cbn; [reflexivity|].
  rewrite andb_true_iff. intros [Hc Hr]. now rewrite (IH Hr), Hc.
Qed.

Lemma trimStart_pad (l x : string) :
  allWhiteSpace l = true -> trimStart (l ++ x) = trimStart x.
Proof.
  induction l as [|c l IH]; cbn; [reflexivity|].
  rewrite andb_true_iff. intros [-> Hl]. auto.
Qed.

Lemma trimEnd_pad (x r : string) :
  allWhiteSpace r = true -> trimEnd (x ++ r) = trimEnd x.
Proof.
  intros Hr. induction x as [|c x IH]; cbn.
  - now apply trimEnd_allWhiteSpace.
  - now rewrite IH.
Qed.

Lemma trim_pad (l x r : string) :
  allWhiteSpace l = true -> allWhiteSpace r = true ->
  trim (l ++ x ++ r) = trim x.
Proof.
  intros Hl Hr. unfold trim. rewrite (trimStart_pad l _ Hl).
  induction x as [|c x IH]; cbn.
  - now rewrite (trimStart_allWhiteSpace r Hr).
  - destruct (isWhiteSpace c); [exact IH|].
    apply (trimEnd_pad (String c x) r Hr).
Qed.

Lemma allWhiteSpace_toLowerCase (s : string) :
  allWhiteSpace (toLowerCase s) = allWhiteSpace s.
Proof.
  induction s as [|c r IH]; cbn; [reflexivity|].
  now rewrite isWhiteSpace_lowerChar, IH.
Qed.

(** X1: a normalized name is in normal form: lower-casing it, trimming it
    or normalizing it again changes nothing, and it neither begins nor ends
    with white space. *)
Theorem normalizeDrugName_normal_form (drug : string) :
  let n := normalizeDrugName drug in
  toLowerCase n = n /\ trim n = n /\
  headSpace n = false /\ lastSpace n = false /\
  normalizeDrugName n = n.
Proof.
  intros n. unfold n, normalizeDrugName.
  assert (L : toLowerCase (trim (toLowerCase drug)) = trim (toLowerCase drug)).
  { now rewrite <- trim_toLowerCase, toLowerCase_idempotent. }
  destruct (trim_spec (toLowerCase drug)) as (l & r & _ & _ & _ & Hh & Hl).
  repeat split; auto using trim_idempotent.
  now rewrite L, trim_idempotent.
Qed.

Lemma normalizeDrugName_padded (l r s u : string) :
  allWhiteSpace l = true -> allWhiteSpace r = true ->
  toLowerCase u = toLowerCase s ->
  normalizeDrugName (l ++ u ++ r) = normalizeDrugName s.
Proof.
  intros Hl Hr E. unfold normalizeDrugName.
  rewrite !toLowerCase_append, E. apply trim_pad.
  - now rewrite allWhiteSpace_toLowerCase.
  - now rewrite allWhiteSpace_toLowerCase.
Qed.

(** X2: white space around a name and the case of its letters do not
    reach the normalized name. *)
Theorem normalizeDrugName_pad_case (l r s u : string) :
  allWhiteSpace l = true -> allWhiteSpace r = true ->
  toLowerCase u = toLowerCase s ->
  normalizeDrugName (l ++ u ++ r) = normalizeDrugName s.
Proof.
  intros Hl Hr E. unfold normalizeDrugName.
  rewrite !toLowerCase_append, E.
  rewrite <- (allWhiteSpace_toLowerCase l) in Hl.
  rewrite <- (allWhiteSpace_toLowerCase r) in Hr.
  exact (trim_pad _ _ _ Hl Hr).
Qed.

Lemma normalizeDrugName_pad_case_witness :
  normalizeDrugName ("  " ++ "WARFARIN" ++ " ") = normalizeDrugName "Warfarin".
Proof.
  apply (normalizeDrugName_pad_case "  " " " "Warfarin" "WARFARIN");
    reflexivity.
Defined.

Lemma toLowerCase_empty (s : string) : toLowerCase s = "" -> s = "".
Proof. destruct s; [reflexivity | discriminate]. Qed.

Lemma append_not_empty (l u r : string) : u <> "" -> l ++ u ++ r <> "".
Proof.
  intros H E. destruct l; cbn in E; [|discriminate].
  destruct u; [now apply H | discriminate].
Qed.

(** X3: two requests whose names differ only in surrounding white space and
    in the case of letters cause the same queries and log lines, and are
    answered with the same severity, description and interaction. *)
Theorem POST_ignores_case_and_padding (env : Env) (supabase : Connector)
  (s1 s2 u1 u2 l1 r1 l2 r2 : string) :
  s1 <> "" -> s2 <> "" ->
  toLowerCase u1 = toLowerCase s1 -> toLowerCase u2 = toLowerCase s2 ->
  allWhiteSpace l1 = true -> allWhiteSpace r1 = true ->
  allWhiteSpace l2 = true -> allWhiteSpace r2 = true ->
  let plain := POST env supabase (Fields (JStr s1) (JStr s2)) in
  let padded :=
    POST env supabase (Fields (JStr (l1 ++ u1 ++ r1)) (JStr (l2 ++ u2 ++ r2))) in
  snd padded = snd plain /\
  exists d e,
    body (fst plain) = InteractionBody d /\
    body (fst padded) = InteractionBody e /\
    severity e = severity d /\
    description e = description d /\
    interaction e = interaction d.
Proof.
  intros H1 H2 E1 E2 L1 R1 L2 R2 plain padded.
  assert (U1 : l1 ++ u1 ++ r1 <> "").
  { apply append_not_empty. intros ->. apply H1.
    now apply toLowerCase_empty. }
  assert (U2 : l2 ++ u2 ++ r2 <> "").
  { apply append_not_empty. intros ->. apply H2.
    now apply toLowerCase_empty. }
  destruct (POST_valid env supabase s1 s2 H1 H2) as (f & F & R).
  destruct (POST_valid env supabase _ _ U1 U2) as (g & G & S).
  rewrite (normalizeDrugName_padded l1 r1 s1 u1 L1 R1 E1),
          (normalizeDrugName_padded l2 r2 s2 u2 L2 R2 E2) in G.
  rewrite F in G. injection G as <- G. fold plain in G. fold padded in G.
  fold plain in R. fold padded in S. split; [now symmetry|].
  rewrite R, S. destruct f; cbn; eexists _, _; repeat split.
Qed.

Lemma POST_ignores_case_and_padding_witness :
  let plain := POST None (Store.run warfarinAspirin)
                 (Fields (JStr "warfarin") (JStr "aspirin")) in
  let padded := POST None (Store.run warfarinAspirin)
                  (Fields (JStr (" " ++ "Warfarin" ++ ""))
                          (JStr ("" ++ "ASPIRIN" ++ "  "))) in
  snd padded = snd plain /\
  exists d e,
    body (fst plain) = InteractionBody d /\
    body (fst padded) = InteractionBody e /\
    severity e = severity d /\
    description e = description d /\
    interaction e = interaction d.
Proof.
  apply (POST_ignores_case_and_padding None (Store.run warfarinAspirin)
           "warfarin" "aspirin" "Warfarin" "ASPIRIN" " " "" "" "  ");
    (discriminate || reflexivity).
Defined.

(** ** Severity normalization *)

(** X4: normalizing the text of a severity gives that severity back, so
    normalizing twice is normalizing once. *)
Theorem normalizeSeverity_text (sev : option string) (v : Severity.t) :
  normalizeSeverity (Some (Severity.text v)) = v /\
  normalizeSeverity (Some (Severity.text (normalizeSeverity sev))) =
    normalizeSeverity sev.
Proof.
  split; [now destruct v|]. now destruct (normalizeSeverity sev).
Qed.

Lemma Occurs_inside (k s pre post : string) :
  Occurs k s -> Occurs k (pre ++ s ++ post).
Proof.
  intros (a & b & ->). exists (pre ++ a), (b ++ post).
  induction pre as [|c pre IH]; cbn.
  - induction a as [|c a IH]; cbn; [|now rewrite IH].
    induction k as [|c k IH]; cbn; [reflexivity | now rewrite IH].
  - now rewrite IH.
Qed.

Lemma orElse_text (s : string) : orElse (Some s) "" = s.
Proof. cbn. now destruct (String.eqb_spec s ""). Qed.

Lemma includes_inside (k s pre post : string) :
  includes s k = true -> includes (pre ++ s ++ post) k = true.
Proof.
  rewrite !includes_Occurs. apply Occurs_inside.
Qed.

(** X5: text added before or after a severity text never lowers the
    severity read from it; in particular what reads as Major keeps
    reading as Major. *)
Theorem normalizeSeverity_monotone (pre s post : string) :
  rank (normalizeSeverity (Some s)) <=
  rank (normalizeSeverity (Some (pre ++ s ++ post))).
Proof.
  unfold normalizeSeverity. rewrite !orElse_text, !toLowerCase_append.
  set (x := toLowerCase s). set (p := toLowerCase pre). set (q := toLowerCase post).
  destruct (includes x "major") eqn:A.
  { rewrite (includes_inside _ _ p q A). constructor. }
  destruct (includes x "moderate") eqn:B.
  { rewrite (includes_inside _ _ p q B).
    destruct (includes (p ++ x ++ q) "major"); cbn; auto. }
  destruct (includes x "minor") eqn:C.
  { rewrite (includes_inside _ _ p q C).
    destruct (includes (p ++ x ++ q) "major"),
             (includes (p ++ x ++ q) "moderate"); cbn; auto. }
  cbn. apply Nat.le_0_l.
Qed.

(** ** The three answers of the route *)

Lemma POST_cases (env : Env) (supabase : Connector) (request : RequestJson) :
  (exists s1 s2, request = Fields (JStr s1) (JStr s2) /\ s1 <> "" /\ s2 <> "") \/
  ((exists d1 d2, request = Fields d1 d2 /\
                  (truthy d1 = false \/ truthy d2 = false)) /\
   POST env supabase request = badRequest) \/
  (Malformed request /\ POST env supabase request = internalError).
Proof.
  destruct request as [|d1 d2].
  { right. right. split; [now left | reflexivity]. }
  destruct (truthy d1) eqn:T1.
  2:{ right. left. split; [exists d1, d2; auto|].
      apply POST_requires_names. auto. }
  destruct (truthy d2) eqn:T2.
  2:{ right. left. split; [exists d1, d2; auto|].
      apply POST_requires_names. auto. }
  assert (B : Malformed (Fields d1 d2) <->
              notString d1 = true \/ notString d2 = true).
  { split.
    - intros [E | (e1 & e2 & E & _ & _ & N)]; [discriminate|].
      now injection E as <- <-.
    - intros N. right. exists d1, d2. auto. }
  unfold POST, handler. cbn [requestJson bind ret app]. rewrite T1, T2.
  destruct d1 as [| |b1|n1|s1|]; try discriminate;
    try (right; right; split; [apply B; now left | reflexivity]).
  destruct d2 as [| |b2|n2|s2|]; try discriminate;
    try (right; right; split; [apply B; now right | reflexivity]).
  left. exists s1, s2. repeat split.
  - intros ->. discriminate.
  - intros ->. discriminate.
Qed.

Lemma sentOver_first (supabase : Connector) (a b t : string) (rest : list string) :
  sentOver supabase a b (t :: rest) <> [].
Proof.
  cbn [sentOver subQueries throughFirst].
  destruct (stops supabase _); discriminate.
Qed.

Lemma POST_strings_ok (env : Env) (supabase : Connector) (s1 s2 : string) :
  s1 <> "" -> s2 <> "" ->
  status (fst (POST env supabase (Fields (JStr s1) (JStr s2)))) = 200 /\
  queries (snd (POST env supabase (Fields (JStr s1) (JStr s2)))) <> [].
Proof.
  intros H1 H2. destruct (POST_spec env supabase s1 s2 H1 H2) as (R & Q & _).
  rewrite R, Q. split.
  - now destruct (resultOver _ _ _ _).
  - apply sentOver_first.
Qed.

Lemma Route_cases (createClient : Route.CreateClient)
  (processEnv : SupabaseServer.ProcessEnv) (env : Env) (request : RequestJson) :
  (createClient (fst (SupabaseServer.getSupabaseServerClient processEnv)) = None /\
   snd (Route.POST createClient processEnv env request) = internalError) \/
  (exists supabase,
     Route.Built createClient processEnv supabase /\
     snd (Route.POST createClient processEnv env request) =
       POST env supabase request).
Proof.
  destruct (createClient (fst (SupabaseServer.getSupabaseServerClient processEnv)))
    as [supabase|] eqn:E.
  - right. exists supabase. split; [exact E | now apply Route_built].
  - left. split; [reflexivity | now apply Route_not_built].
Qed.

(** X6: the whole route answers 400 "Both drug names are required",
    without any query and without any console.error line, exactly when its
    client could be built and one of the two fields is missing, null, the
    empty string, zero or false. *)
Theorem missing_name_is_rejected (createClient : Route.CreateClient)
  (processEnv : SupabaseServer.ProcessEnv) (env : Env) (d1 d2 : jsval) :
  ((exists supabase, Route.Built createClient processEnv supabase) /\
   (truthy d1 = false \/ truthy d2 = false)) <->
  snd (Route.POST createClient processEnv env (Fields d1 d2)) =
    ({| status := 400; body := ErrorBody "Both drug names are required" |}, []).
Proof.
  destruct (Route_cases createClient processEnv env (Fields d1 d2))
    as [[N ->] | (supabase & B & ->)].
  - split; [| discriminate]. intros [[supabase B] _].
    unfold Route.Built in B. congruence.
  - split.
    + intros [_ T]. now apply POST_requires_names.
    + intros E. split; [now exists supabase|].
      destruct (POST_cases env supabase (Fields d1 d2))
        as [(s1 & s2 & F & H1 & H2) | [[(e1 & e2 & F & T) _] | [_ I]]].
      * injection F as -> ->.
        destruct (POST_strings_ok env supabase s1 s2 H1 H2) as [S _].
        rewrite E in S. discriminate.
      * now injection F as <- <-.
      * rewrite E in I. discriminate.
Qed.

(** X7: the whole route answers 500 "Internal server error", with one
    console.error line and without any query, exactly when its client
    cannot be built, or the body did not parse, or both fields are truthy
    and one of them is not a string. *)
Theorem malformed_request_is_internal_error (createClient : Route.CreateClient)
  (processEnv : SupabaseServer.ProcessEnv) (env : Env) (request : RequestJson) :
  (createClient (fst (SupabaseServer.getSupabaseServerClient processEnv)) = None \/
   request = Unparsable \/
   exists d1 d2, request = Fields d1 d2 /\
                 truthy d1 = true /\ truthy d2 = true /\
                 (notString d1 = true \/ notString d2 = true)) <->
  snd (Route.POST createClient processEnv env request) =
    ({| status := 500; body := ErrorBody "Internal server error" |},
     [ConsoleError ["Error checking drug interaction:"]]).
Proof.
  change (createClient (fst (SupabaseServer.getSupabaseServerClient processEnv)) = None \/
          Malformed request <->
          snd (Route.POST createClient processEnv env request) = internalError).
  destruct (Route_cases createClient processEnv env request)
    as [[N ->] | (supabase & B & ->)]; [tauto|].
  assert (NB : createClient (fst (SupabaseServer.getSupabaseServerClient processEnv))
               = None <-> False).
  { unfold Route.Built in B. rewrite B. split; [discriminate | contradiction]. }
  rewrite NB.
  destruct (POST_cases env supabase request)
    as [(s1 & s2 & -> & H1 & H2) | [[(e1 & e2 & -> & T) E] | [M I]]].
  - destruct (POST_strings_ok env supabase s1 s2 H1 H2) as [S _].
    split.
    + intros [[] | [E | (d1 & d2 & E & _ & _ & [N | N])]]; try discriminate;
        injection E as <- <-; discriminate.
    + intros E. rewrite E in S. discriminate.
  - split.
    + intros [[] | [F | (d1 & d2 & F & T1 & T2 & _)]]; [discriminate|].
      injection F as <- <-. destruct T; congruence.
    + rewrite E. discriminate.
  - tauto.
Qed.

(** X8: the status of the whole route is 200, 400 or 500; the store is
    asked exactly when it is 200, which is exactly when the client could
    be built and both fields are non-empty strings. *)
Theorem store_asked_iff_ok (createClient : Route.CreateClient)
  (processEnv : SupabaseServer.ProcessEnv) (env : Env) (request : RequestJson) :
  let run := snd (Route.POST createClient processEnv env request) in
  (status (fst run) = 200 \/ status (fst run) = 400 \/ status (fst run) = 500) /\
  (queries (snd run) <> [] <-> status (fst run) = 200) /\
  (status (fst run) = 200 <->
   (exists supabase, Route.Built createClient processEnv supabase) /\
   exists s1 s2, request = Fields (JStr s1) (JStr s2) /\ s1 <> "" /\ s2 <> "").
Proof.
  intros run. unfold run.
  destruct (Route_cases createClient processEnv env request)
    as [[N ->] | (supabase & B & ->)].
  { cbn. repeat split; auto; try discriminate.
    - intros H. now contradiction H.
    - intros [[supabase B] _]. unfold Route.Built in B. congruence. }
  assert (SB : exists supabase, Route.Built createClient processEnv supabase)
    by now exists supabase.
  destruct (POST_cases env supabase request)
    as [(s1 & s2 & -> & H1 & H2) | [[(e1 & e2 & -> & T) E] | [M I]]].
  - destruct (POST_strings_ok env supabase s1 s2 H1 H2) as [S Q].
    repeat split; auto. now exists s1, s2.
  - rewrite E. cbn. repeat split; auto; try discriminate.
    + intros H. now contradiction H.
    + intros [_ (s1 & s2 & F & H1 & H2)]. injection F as -> ->.
      destruct T as [T | T]; cbn in T; apply negb_false_iff in T;
        apply String.eqb_eq in T; contradiction.
  - rewrite I. cbn. repeat split; auto; try discriminate.
    + intros H. now contradiction H.
    + intros [_ (s1 & s2 & -> & H1 & H2)].
      destruct M as [F | (d1 & d2 & F & _ & _ & [N | N])]; try discriminate;
        injection F as <- <-; discriminate.
Qed.

(** ** Bounds on the work of a request *)

Lemma throughFirst_length {A} (p : A -> bool) (l : list A) :
  length (throughFirst p l) <= length l.
Proof.
  induction l as [|x l IH]; cbn; [constructor|].
  destruct (p x); cbn; [apply le_n_S, Nat.le_0_l | now apply le_n_S].
Qed.

Lemma sentOver_length (supabase : Connector) (a b : string) (tables : list string) :
  length (sentOver supabase a b tables) <= 4 * length tables.
Proof.
  induction tables as [|t rest IH]; [constructor|].
  cbn [sentOver]. rewrite length_app.
  pose proof (throughFirst_length (stops supabase) (subQueries a b t)) as L.
  change (length (subQueries a b t)) with 4 in L.
  destruct (isSome _); cbn [length] in *.
  - rewrite Nat.add_0_r. etransitivity; [exact L|].
    rewrite Nat.mul_succ_r. apply Nat.le_add_l.
  - rewrite Nat.mul_succ_r, Nat.add_comm. now apply Nat.add_le_mono.
Qed.

Lemma linesOver_length (supabase : Connector) (a b : string) (tables : list string) :
  length (linesOver supabase a b tables) <= length tables.
Proof.
  induction tables as [|t rest IH]; [constructor|].
  cbn [linesOver]. rewrite length_app.
  assert (L : length (tableErrorLines supabase a b t) <= 1).
  { unfold tableErrorLines. destruct (existsb _ _); [apply Nat.le_0_l|].
    destruct (existsb _ _); auto. }
  destruct (isSome _); cbn [length] in *.
  - rewrite Nat.add_0_r. etransitivity; [exact L|]. apply le_n_S, Nat.le_0_l.
  - change (S (length rest)) with (1 + length rest).
    now apply Nat.add_le_mono.
Qed.

Lemma plan_queries (env : Env) (a b : string) (q : Query) :
  In q (plan env a b) -> limit q = 1 /\ In (from q) (tableCandidates env).
Proof.
  unfold plan. rewrite in_flat_map. intros (t & It & Iq). cbn in Iq.
  repeat (destruct Iq as [<- | Iq]; [split; [reflexivity | exact It]|]).
  contradiction.
Qed.

(** X9: whatever the request and the store, the route sends at most twelve
    queries and logs at most three lines; every query it sends has limit 1
    and reads one of the three candidate tables. *)
Theorem POST_work_is_bounded (env : Env) (supabase : Connector)
  (request : RequestJson) :
  let run := POST env supabase request in
  length (queries (snd run)) <= 12 /\
  length (errorLines (snd run)) <= 3 /\
  Forall (fun q => limit q = 1 /\ In (from q) (tableCandidates env))
    (queries (snd run)).
Proof.
  intros run. unfold run.
  destruct (POST_cases env supabase request)
    as [(s1 & s2 & -> & H1 & H2) | [[_ ->] | [_ ->]]].
  - destruct (POST_spec env supabase s1 s2 H1 H2) as (_ & Q & L).
    rewrite Q, L. repeat split.
    + apply (sentOver_length supabase _ _ (tableCandidates env)).
    + apply (linesOver_length supabase _ _ (tableCandidates env)).
    + apply Forall_forall. intros q Hq. apply sentOver_incl in Hq.
      now apply plan_queries in Hq.
  - cbn. repeat split; auto using Nat.le_0_l.
  - cbn. repeat split; auto. repeat constructor.
Qed.

(** ** Records of Variant A, in one source *)

(** X10: when the first record of a source comes from a Variant A
    sub-query (on the names as given, or on the names swapped after the two
    sub-queries before it neither returned a record nor threw), the lookup
    returns the row as it is: its drug1, drug2, severity, description and
    interaction fields. *)
Theorem variantA_result (supabase : Connector) (n1 n2 t : string) (row : Row) :
  let like1 := "%" ++ n1 ++ "%" in
  let like2 := "%" ++ n2 ++ "%" in
  recordOf supabase (variantA t like1 like2) = Some row \/
  (stops supabase (variantA t like1 like2) = false /\
   stops supabase (variantB t like1 like2) = false /\
   recordOf supabase (variantA t like2 like1) = Some row) ->
  fst (findInteractionInTable supabase n1 n2 t) =
    Normal (Some {| drug1 := field "drug1" row;
                    drug2 := field "drug2" row;
                    severity := field "severity" row;
                    description := field "description" row;
                    interaction := field "interaction" row |}).
Proof.
  intros like1 like2 H. apply tryCatch_found.
  destruct (findInteractionInTable_spec supabase n1 n2 t) as (R & _).
  rewrite R. clear R. unfold attempts, likeOf. fold like1 like2.
  unfold stops, rejects, recordOf in H. cbn [firstRecord].
  destruct H as [A1 | (A1 & B1 & A2)].
  - destruct (supabase (variantA t like1 like2)) as [|r1]; [discriminate|].
    now rewrite A1.
  - destruct (supabase (variantA t like1 like2)) as [|r1]; [discriminate|].
    destruct (firstRow r1); [discriminate|].
    destruct (supabase (variantB t like1 like2)) as [|r2]; [discriminate|].
    destruct (firstRow r2); [discriminate|].
    destruct (supabase (variantA t like2 like1)) as [|r3]; [discriminate|].
    now rewrite A2.
Qed.

Lemma variantA_result_witness :
  fst (findInteractionInTable (Store.run warfarinAspirin)
         "aspirin" "warfarin" "drug_interactions") =
    Normal (Some {| drug1 := Some "warfarin";
                    drug2 := Some "aspirin";
                    severity := Some "Major bleeding risk";
                    description := None;
                    interaction := None |}).
Proof.
  apply (variantA_result (Store.run warfarinAspirin)
           "aspirin" "warfarin" "drug_interactions"
           [("drug1", "warfarin"); ("drug2", "aspirin");
            ("severity", "Major bleeding risk")]).
  right. repeat split.
Defined.

(** ** The first source with a record *)

Lemma tryCatch_queries {A} (m : Async (option A)) :
  queries (snd (tryCatch m (ret None))) = queries (snd m).
Proof.
  destruct m as [[o|] ev]; cbn; [reflexivity | now rewrite app_nil_r].
Qed.

Lemma findInteractionInTable_from (supabase : Connector) (a b t : string) :
  Forall (fun q => from q = t)
    (queries (snd (findInteractionInTable supabase a b t))).
Proof.
  rewrite <- tryCatch_queries.
  destruct (findInteractionInTable_spec supabase a b t) as (_ & Q & _).
  rewrite Q. apply Forall_forall. intros q Hq.
  apply throughFirst_incl in Hq. cbn in Hq.
  repeat (destruct Hq as [<- | Hq]; [reflexivity|]). contradiction.
Qed.

(** X11: the loop over the tables returns the record of the first table
    whose lookup returns one: tables before it whose lookup returns null or
    throws do not matter, and no query is sent to the tables after it. *)
Theorem first_source_with_record_decides (supabase : Connector) (a b : string)
  (before : list string) (t : string) (later : list string)
  (i : DrugInteraction) :
  (forall t' j, In t' before ->
                fst (findInteractionInTable supabase a b t') <> Normal (Some j)) ->
  fst (findInteractionInTable supabase a b t) = Normal (Some i) ->
  let run := forTableCandidates supabase a b (before ++ t :: later) in
  fst run = Normal (Some i) /\
  Forall (fun q => In (from q) (before ++ [t])) (queries (snd run)).
Proof.
  intros Hb Ht. induction before as [|t' before IH]; cbn [app forTableCandidates].
  - pose proof (findInteractionInTable_from supabase a b t) as F.
    destruct (findInteractionInTable supabase a b t) as [c ev].
    cbn in Ht. subst c. cbn. rewrite app_nil_r. split; [reflexivity|].
    eapply Forall_impl; [|exact F]. intros q <-. now left.
  - pose proof (findInteractionInTable_from supabase a b t') as F.
    pose proof (Hb t') as N.
    destruct IH as [R Q].
    { intros u j Iu. apply Hb. now right. }
    destruct (findInteractionInTable supabase a b t') as [[[j|]|] ev].
    + exfalso. apply (N j); [now left | reflexivity].
    + cbn [tryCatch bind].
      destruct (forTableCandidates supabase a b (before ++ t :: later))
        as [c ev']. cbn in R. subst c. cbn [fst snd]. split; [reflexivity|].
      rewrite queries_app. apply Forall_app. split.
      * eapply Forall_impl; [|exact F]. intros q <-. now left.
      * eapply Forall_impl; [|exact Q]. intros q Iq. now right.
    + cbn [tryCatch ret bind].
      destruct (forTableCandidates supabase a b (before ++ t :: later))
        as [c ev']. cbn in R. subst c. cbn [fst snd]. split; [reflexivity|].
      rewrite app_nil_r, queries_app. apply Forall_app. split.
      * eapply Forall_impl; [|exact F]. intros q <-. now left.
      * eapply Forall_impl; [|exact Q]. intros q Iq. now right.
Qed.

Lemma first_source_with_record_decides_witness :
  let run := forTableCandidates (Store.run metforminLisinopril)
               "metformin" "lisinopril"
               (["drug_interactions"] ++ "DrugInteraction" :: ["druginteraction"]) in
  fst run = Normal (Some {| drug1 := Some "metformin";
                            drug2 := Some "lisinopril";
                            severity := Some "Minor";
                            description := None;
                            interaction := None |}) /\
  Forall (fun q => In (from q) (["drug_interactions"] ++ ["DrugInteraction"]))
    (queries (snd run)).
Proof.
  apply (first_source_with_record_decides (Store.run metforminLisinopril)
           "metformin" "lisinopril" ["drug_interactions"] "DrugInteraction"
           ["druginteraction"]).
  - intros t' j [<- | []]. discriminate.
  - reflexivity.
Defined.

(** ** The page and the route together *)

Lemma trim_eqb_false (s : string) : trim s <> "" -> (trim s =? "") = false.
Proof. intros H. now destruct (String.eqb_spec (trim s) ""). Qed.

(** X12: the page served by the whole route, on two non-blank names: it
    sends the two trimmed names and ends with loading off.  When the
    route's client is built the page never receives a 400 or a 500: the
    run ends with no error, the modal open and the route's interaction for
    exactly those names as the result.  When the client cannot be built
    the route answers 500 and the run ends with the failure message, no
    result and the modal as it was. *)
Theorem page_over_route (createClient : Route.CreateClient)
  (processEnv : SupabaseServer.ProcessEnv) (env : Env) (st : Page.State) :
  let run := Page.checkInteraction (Page.served createClient processEnv env) st in
  let final := Page.after st (fst run) in
  let name1 := trim (Page.drug1 st) in
  let name2 := trim (Page.drug2 st) in
  name1 <> "" -> name2 <> "" ->
  snd run = [Fields (JStr name1) (JStr name2)] /\
  Page.loading final = false /\
  ((exists supabase, Route.Built createClient processEnv supabase) ->
   Page.error final = None /\ Page.showResults final = true /\
   exists d, Page.result final = Some (InteractionBody d) /\
             drug1 d = Some name1 /\ drug2 d = Some name2) /\
  (createClient (fst (SupabaseServer.getSupabaseServerClient processEnv)) = None ->
   Page.error final = Some Page.failureMessage /\
   Page.result final = None /\
   Page.showResults final = Page.showResults st).
Proof.
  intros run final name1 name2 N1 N2.
  unfold final, run, Page.checkInteraction, Page.served.
  unfold name1, name2 in N1, N2 |- *.
  rewrite (trim_eqb_false _ N1), (trim_eqb_false _ N2). cbn [orb fst snd].
  split; [reflexivity|].
  destruct (Route_cases createClient processEnv env
              (Fields (JStr (trim (Page.drug1 st))) (JStr (trim (Page.drug2 st)))))
    as [[N ->] | (supabase & B & ->)].
  - cbn. split; [reflexivity|]. split.
    + intros [supabase B]. unfold Route.Built in B. congruence.
    + intros _. repeat split.
  - assert (NB : createClient
                   (fst (SupabaseServer.getSupabaseServerClient processEnv)) = None ->
                 False)
      by (unfold Route.Built in B; congruence).
    destruct (POST_spec env supabase _ _ N1 N2) as (R & _).
    rewrite R.
    destruct (resultOver _ _ _ _);
      unfold respond, matchedResponse, fallbackResponse;
      rewrite !trim_idempotent; cbn;
      (split; [reflexivity|]; split;
       [ intros _; repeat split; eexists; repeat split
       | intros N; exfalso; exact (NB N) ]).
Qed.

Lemma page_over_route_witness :
  let st := {| Page.drug1 := " Aspirin"; Page.drug2 := "Warfarin ";
               Page.loading := false; Page.result := None;
               Page.error := None; Page.showResults := false |} in
  let built := Page.after st (fst (Page.checkInteraction
                 (Page.served (Route.reference warfarinAspirin)
                    Route.configured None) st)) in
  let unbuilt := Page.after st (fst (Page.checkInteraction
                   (Page.served (Route.reference warfarinAspirin)
                      Route.unconfigured None) st)) in
  (Page.error built = None /\ Page.showResults built = true /\
   exists d, Page.result built = Some (InteractionBody d) /\
             drug1 d = Some "Aspirin" /\ drug2 d = Some "Warfarin") /\
  (Page.error unbuilt = Some Page.failureMessage /\
   Page.result unbuilt = None /\
   Page.showResults unbuilt = false).
Proof.
  cbv zeta. split.
  - apply (page_over_route (Route.reference warfarinAspirin) Route.configured None
             {| Page.drug1 := " Aspirin"; Page.drug2 := "Warfarin ";
                Page.loading := false; Page.result := None;
                Page.error := None; Page.showResults := false |});
      try discriminate.
    now exists (Store.run warfarinAspirin).
  - apply (page_over_route (Route.reference warfarinAspirin) Route.unconfigured None
             {| Page.drug1 := " Aspirin"; Page.drug2 := "Warfarin ";
                Page.loading := false; Page.result := None;
                Page.error := None; Page.showResults := false |});
      try discriminate.
    reflexivity.
Defined.

(** X13: how a run of checkInteraction ends, for every server.  With a
    blank name no request is sent, the validation message shows and the
    rest of the state, an earlier result included, stays.  Otherwise one
    request is sent, loading ends off, and either an ok response is the
    result, with no error and the modal open, or the failure message shows
    with no result and the modal as it was. *)
Theorem checkInteraction_outcomes (fetch : Page.Fetch) (st : Page.State) :
  let run := Page.checkInteraction fetch st in
  let final := Page.after st (fst run) in
  (snd run = [] /\
   (trim (Page.drug1 st) = "" \/ trim (Page.drug2 st) = "") /\
   Page.error final = Some "Please enter both drug names" /\
   Page.result final = Page.result st /\
   Page.loading final = Page.loading st /\
   Page.showResults final = Page.showResults st) \/
  (length (snd run) = 1 /\
   trim (Page.drug1 st) <> "" /\ trim (Page.drug2 st) <> "" /\
   Page.loading final = false /\
   ((exists response, fetch (Fields (JStr (trim (Page.drug1 st)))
                               (JStr (trim (Page.drug2 st)))) = Some response /\
                      Page.ok response = true /\
                      Page.result final = Some (body response) /\
                      Page.error final = None /\
                      Page.showResults final = true) \/
    (Page.result final = None /\
     Page.error final = Some Page.failureMessage /\
     Page.showResults final = Page.showResults st))).
Proof.
  intros run final. unfold final, run, Page.checkInteraction.
  destruct (String.eqb_spec (trim (Page.drug1 st)) "") as [E1 | N1].
  { left. cbn. repeat split; auto. }
  destruct (String.eqb_spec (trim (Page.drug2 st)) "") as [E2 | N2].
  { left. cbn. repeat split; auto. }
  right. cbn [orb fst snd length]. repeat split; auto.
  - destruct (fetch _) as [response|]; [destruct (Page.ok response)|]; reflexivity.
  - destruct (fetch _) as [response|] eqn:F;
      [destruct (Page.ok response) eqn:O|].
    + left. exists response. cbn. auto.
    + right. cbn. auto.
    + right. cbn. auto.
Qed.

(** ** What the page shows for a severity *)

Lemma eqb_neq (a b : string) : a <> b -> (a =? b) = false.
Proof. intros H. now destruct (String.eqb_spec a b). Qed.

(** X14: for a severity text outside Major, Moderate, Minor and None the
    page shows the icon and the palette of Minor together with the advice
    of None ("No significant interaction found in our database."). *)
Theorem unknown_severity_display (severity : string) :
  ~ In severity severityTexts ->
  Page.getSeverityIcon severity = Page.getSeverityIcon "Minor" /\
  Page.getSeverityConfig severity = Page.getSeverityConfig "Minor" /\
  Page.getSeverityAdvice severity = Page.getSeverityAdvice "None" /\
  hd_error (Page.getSeverityAdvice severity) =
    Some "No significant interaction found in our database.".
Proof.
  intros H. cbn in H.
  assert (H1 : severity <> "Major") by (intros ->; apply H; auto).
  assert (H2 : severity <> "Moderate") by (intros ->; apply H; auto).
  assert (H3 : severity <> "Minor") by (intros ->; apply H; auto).
  assert (H4 : severity <> "None") by (intros ->; apply H; auto 6).
  unfold Page.getSeverityIcon, Page.getSeverityConfig, Page.getSeverityAdvice.
  rewrite (eqb_neq _ _ H1), (eqb_neq _ _ H2), (eqb_neq _ _ H3), (eqb_neq _ _ H4).
  repeat split.
Qed.

Lemma unknown_severity_display_witness :
  Page.getSeverityIcon "Major bleeding risk" = Page.getSeverityIcon "Minor" /\
  Page.getSeverityConfig "Major bleeding risk" = Page.getSeverityConfig "Minor" /\
  Page.getSeverityAdvice "Major bleeding risk" = Page.getSeverityAdvice "None" /\
  hd_error (Page.getSeverityAdvice "Major bleeding risk") =
    Some "No significant interaction found in our database.".
Proof.
  apply (unknown_severity_display "Major bleeding risk").
  cbv. intuition discriminate.
Defined.

(** X15: each of the three display functions tells the four severities
    apart: two texts that normalize to different severities are shown with
    different icons, different palettes and different advice. *)
Theorem severities_displayed_apart (v w : Severity.t) :
  (Page.getSeverityIcon (Severity.text v) = Page.getSeverityIcon (Severity.text w) ->
   v = w) /\
  (Page.getSeverityConfig (Severity.text v) = Page.getSeverityConfig (Severity.text w) ->
   v = w) /\
  (Page.getSeverityAdvice (Severity.text v) = Page.getSeverityAdvice (Severity.text w) ->
   v = w).
Proof.
  destruct v, w; repeat split; intros H; try reflexivity;
    (cbv in H; discriminate).
Qed.

(** ** The client factory *)

Lemma in_if_singleton (c : bool) (w x : string) :
  In x (if c then [w] else []) <-> c = true /\ w = x.
Proof.
  destruct c; cbn; intuition discriminate.
Qed.

Lemma pick_empty (x y : string) :
  ((if x =? "" then y else x) =? "") = true <-> x = "" /\ y = "".
Proof.
  destruct (String.eqb_spec x "") as [-> | N].
  - rewrite String.eqb_eq. tauto.
  - rewrite String.eqb_eq. tauto.
Qed.

Lemma orElse_twice (x y : option string) :
  orElse x (orElse y "") =
  if orElse x "" =? "" then orElse y "" else orElse x "".
Proof.
  destruct x as [x|]; cbn; [|reflexivity].
  destruct (String.eqb_spec x "") as [-> | N]; [reflexivity|].
  now destruct (String.eqb_spec x "").
Qed.

(** X16: [createClient] gets the service role key whenever it is set and
    not empty, else the anon key, and [SUPABASE_URL] before the public
    URL; it gets an empty key, or an empty URL, exactly when neither
    variable is usable, and exactly then the matching warning is logged. *)
Theorem server_client_choice (env : SupabaseServer.ProcessEnv) :
  let made := SupabaseServer.getSupabaseServerClient env in
  let service := orElse (SupabaseServer.SUPABASE_SERVICE_ROLE_KEY env) "" in
  let anon := orElse (SupabaseServer.NEXT_PUBLIC_SUPABASE_ANON_KEY env) "" in
  let url := orElse (SupabaseServer.SUPABASE_URL env) "" in
  let publicUrl := orElse (SupabaseServer.NEXT_PUBLIC_SUPABASE_URL env) "" in
  SupabaseServer.supabaseKey (fst made) = (if service =? "" then anon else service) /\
  SupabaseServer.supabaseUrl (fst made) = (if url =? "" then publicUrl else url) /\
  (SupabaseServer.supabaseKey (fst made) = "" <-> service = "" /\ anon = "") /\
  (SupabaseServer.supabaseUrl (fst made) = "" <-> url = "" /\ publicUrl = "") /\
  (In SupabaseServer.keyWarning (snd made) <->
   SupabaseServer.supabaseKey (fst made) = "") /\
  (In SupabaseServer.urlWarning (snd made) <->
   SupabaseServer.supabaseUrl (fst made) = "").
Proof.
  intros made service anon url publicUrl.
  unfold made, SupabaseServer.getSupabaseServerClient.
  cbn [fst snd SupabaseServer.supabaseKey SupabaseServer.supabaseUrl].
  rewrite !orElse_twice. fold service anon url publicUrl.
  split; [reflexivity|]. split; [reflexivity|].
  split; [rewrite <- String.eqb_eq; apply pick_empty|].
  split; [rewrite <- String.eqb_eq; apply pick_empty|].
  rewrite !in_app_iff, !in_if_singleton, <- !String.eqb_eq.
  split; split; intros H; try tauto.
  - destruct H as [[_ H] | [H _]]; [discriminate | exact H].
  - destruct H as [[H _] | [_ H]]; [exact H | discriminate].
Qed.

(** ** What reaches the store *)

Lemma POST_sent (env : Env) (supabase : Connector) (request : RequestJson) :
  queries (snd (POST env supabase request)) = [] \/
  exists s1 s2,
    queries (snd (POST env supabase request)) =
      sentOver supabase (normalizeDrugName s1) (normalizeDrugName s2)
        (tableCandidates env).
Proof.
  destruct (POST_cases env supabase request)
    as [(s1 & s2 & -> & H1 & H2) | [[_ ->] | [_ ->]]]; [| now left | now left].
  right. exists s1, s2. now destruct (POST_spec env supabase s1 s2 H1 H2) as (_ & Q & _).
Qed.

(** X17: with the table override set to a non-empty name, every query
    reads that table or one of the two fixed names, and the first query
    reads the override; the default "drug_interactions" is then no
    candidate.  An override set to the empty string is the same as none. *)
Theorem table_override (supabase : Connector) (request : RequestJson)
  (tableName : string) :
  tableName <> "" ->
  let run := POST (Some tableName) supabase request in
  tableCandidates (Some tableName) =
    [tableName; "DrugInteraction"; "druginteraction"] /\
  Forall (fun q => In (from q) [tableName; "DrugInteraction"; "druginteraction"])
    (queries (snd run)) /\
  (forall q rest, queries (snd run) = q :: rest -> from q = tableName) /\
  POST (Some "") supabase request = POST None supabase request.
Proof.
  intros H run.
  assert (T : tableCandidates (Some tableName) =
              [tableName; "DrugInteraction"; "druginteraction"]).
  { unfold tableCandidates, orElse. now rewrite (eqb_neq _ _ H). }
  split; [exact T|]. unfold run.
  destruct (POST_sent (Some tableName) supabase request) as [-> | (s1 & s2 & ->)].
  - repeat split; [constructor | discriminate].
  - rewrite T. repeat split.
    + apply Forall_forall. intros q Hq. apply sentOver_incl in Hq.
      apply in_flat_map in Hq. destruct Hq as (t & It & Iq). cbn in Iq.
      repeat (destruct Iq as [<- | Iq]; [exact It|]). contradiction.
    + intros q rest. cbn [sentOver subQueries throughFirst].
      destruct (stops supabase _); cbn; now intros [= <- _].
Qed.

Lemma table_override_witness :
  let run := POST (Some "ddinter") (Store.run warfarinAspirin)
               (Fields (JStr "aspirin") (JStr "warfarin")) in
  tableCandidates (Some "ddinter") =
    ["ddinter"; "DrugInteraction"; "druginteraction"] /\
  Forall (fun q => In (from q) ["ddinter"; "DrugInteraction"; "druginteraction"])
    (queries (snd run)) /\
  (forall q rest, queries (snd run) = q :: rest -> from q = "ddinter") /\
  POST (Some "") (Store.run warfarinAspirin)
    (Fields (JStr "aspirin") (JStr "warfarin")) =
  POST None (Store.run warfarinAspirin)
    (Fields (JStr "aspirin") (JStr "warfarin")).
Proof.
  apply (table_override (Store.run warfarinAspirin)
           (Fields (JStr "aspirin") (JStr "warfarin")) "ddinter").
  discriminate.
Defined.

(** X18: whatever the request, each query sent filters two columns, each
    with a pattern [%n%] whose [n] is a normalized name: lower-case, with
    no white space at either end. *)
Theorem patterns_are_normalized (env : Env) (supabase : Connector)
  (request : RequestJson) :
  Forall (fun q =>
            length (ilike q) = 2 /\
            Forall (fun f => exists n, snd f = "%" ++ n ++ "%" /\
                                       toLowerCase n = n /\ trim n = n)
              (ilike q))
    (queries (snd (POST env supabase request))).
Proof.
  destruct (POST_sent env supabase request) as [-> | (s1 & s2 & ->)];
    [constructor|].
  assert (N : forall s, toLowerCase (normalizeDrugName s) = normalizeDrugName s /\
                        trim (normalizeDrugName s) = normalizeDrugName s).
  { intros s. unfold normalizeDrugName. split.
    - now rewrite <- trim_toLowerCase, toLowerCase_idempotent.
    - apply trim_idempotent. }
  apply Forall_forall. intros q Hq. apply sentOver_incl in Hq.
  apply in_flat_map in Hq. destruct Hq as (t & _ & Iq). cbn in Iq.
  repeat (destruct Iq as [<- | Iq];
          [split; [reflexivity|];
           repeat constructor; eexists; (split; [reflexivity | apply N])|]).
  contradiction.
Qed.
